(** * Movie recommender: the scoring pipeline of [app.py] and the
      analytical queries of [database_utils.py]

    The development embeds
    - the two SQL statements of [get_similar_recs] and [get_all_user_recs]
      as list programs over the [ratings] table (a table is the list of its
      rows; a query result keeps the row order of a nested-loop evaluation),
    - [execute_query] with its [except] branch, which returns [None],
    - the memoisation of [st.cache_data] as an explicit store threaded through
      the calls,
    - the data-frame pipeline of [recommendation] with its [try]/[except],
    - the title-cleaning script [db_clean_titles.py] with [get_titles],
      [update_clean_titles] and the transaction of [execute_many_query],
    - [create_indexes] and the selection of a movie in [main].

    Numbers: PostgreSQL [FLOAT] and pandas [float64] values are modelled as
    exact rationals ([Qc], canonical fractions with Leibniz equality);
    identifiers and timestamps are integers, and no column holds a NULL.
    Where SQL or pandas leave the order of rows open (ties of a sort, rows of
    a join), the model fixes the order of the input. *)

From Stdlib Require Import ZArith QArith Qcanon List Permutation Sorted Lia Bool.
From stdpp Require Import gmap strings.
Import ListNotations.

Local Open Scope Z_scope.

(** ** Rows of the tables and of the data frames *)

(** A row of the [ratings] table (imported from [ratings.csv]). *)
Module Rating.
Record t := mk { userId : Z; movieId : Z; rating : Qc; timestamp : Z }.
End Rating.

(** A row of the [movies] table. *)
Module Movie.
Record t := mk { movieId : Z; title : string; genres : string }.
End Movie.

(** A row of the frame returned by [get_similar_recs]. *)
Module Similar.
Record t := mk { movieId : Z; similarity_score : Qc }.
End Similar.

(** A row of [all_user_recs] after [reset_index]: columns [movieId], [count]. *)
Module Counted.
Record t := mk { movieId : Z; count : Qc }.
End Counted.

(** A row of the outer merge before [fillna]: a missing side is [NaN]. *)
Module Merged.
Record t := mk { movieId : Z; similarity_score : option Qc; count : option Qc }.
End Merged.

(** A row of [combined_recommendations] once the [score] column is set. *)
Module Combined.
Record t := mk { movieId : Z; similarity_score : Qc; count : Qc; score : Qc }.
End Combined.

(** A row of [results]: the combined columns and the columns of [movies]. *)
Module Result.
Record t := mk { movieId : Z; similarity_score : Qc; count : Qc; score : Qc;
                 title : string; genres : string }.
End Result.

(** ** Numeric helpers *)

Definition Qc_ltb (x y : Qc) : bool :=
  match (x ?= y)%Qc with Lt => true | _ => false end.

Definition Qc_eqb (x y : Qc) : bool :=
  match (x ?= y)%Qc with Eq => true | _ => false end.

(** [CAST(n AS FLOAT)] of a row count. *)
Definition Qc_of_nat (n : nat) : Qc := Qc_of_Z (Z.of_nat n).

(** The literal [0.1] of the two queries. *)
Definition one_tenth : Qc := Q2Qc (1 # 10).

(** The literal [4] of [WHERE "rating" > 4]. *)
Definition four : Qc := Qc_of_Z 4.

(** ** Relational operators *)

(** Keys of a [GROUP BY] and values of [unique()]: each value once, at its
    first occurrence. *)
Fixpoint distinct (l : list Z) : list Z :=
  match l with
  | [] => []
  | x :: l' => x :: List.filter (fun y => negb (y =? x)) (distinct l')
  end.

(** [ORDER BY key DESC] and [sort_values(key, ascending=False)]: insertion
    into a descending list; rows with equal keys keep their input order (an
    order that neither PostgreSQL nor pandas promises). *)
Section Sorting.
Context {A : Type} (key : A -> Qc).

Fixpoint insert_desc (x : A) (l : list A) : list A :=
  match l with
  | [] => [x]
  | y :: l' => if Qc_ltb (key x) (key y) then y :: insert_desc x l'
               else x :: y :: l'
  end.

Definition sort_desc (l : list A) : list A :=
  fold_right insert_desc [] l.
End Sorting.

(** A frame is in descending order of a key column. *)
Definition sorted_desc {A : Type} (key : A -> Qc) (l : list A) : Prop :=
  StronglySorted (fun a b => (key b <= key a)%Qc) l.

(** Ascending order of integer keys, used by the outer merge. *)
Fixpoint insert_asc (x : Z) (l : list Z) : list Z :=
  match l with
  | [] => [x]
  | y :: l' => if x <? y then x :: y :: l' else y :: insert_asc x l'
  end.

Definition sort_asc (l : list Z) : list Z := fold_right insert_asc [] l.

(** SQL division: PostgreSQL raises [division by zero] on a zero divisor. *)
Definition sql_div (a b : Qc) : option Qc :=
  if Qc_eqb b 0 then None else Some (a / b)%Qc.

(** Evaluation of a select list over the groups, failing when a row fails. *)
Fixpoint select_all {A B : Type} (f : A -> option B) (l : list A) : option (list B) :=
  match l with
  | [] => Some []
  | x :: l' =>
      match f x with
      | None => None
      | Some y => match select_all f l' with
                  | None => None
                  | Some ys => Some (y :: ys)
                  end
      end
  end.

(** ** The queries of [database_utils.py] *)

Definition highly_rated (r : Rating.t) : bool := Qc_ltb four (Rating.rating r).

(** [FROM ratings WHERE "movieId" = :movie_id AND "rating" > 4]: the rows of
    the seed cohort. *)
Definition cohort_rows (ratings : list Rating.t) (movie_id : Z) : list Rating.t :=
  List.filter (fun r => (Rating.movieId r =? movie_id) && highly_rated r) ratings.

(** [SELECT "userId" FROM ratings WHERE "movieId" = :movie_id AND "rating" > 4]. *)
Definition cohort_users (ratings : list Rating.t) (movie_id : Z) : list Z :=
  List.map Rating.userId (cohort_rows ratings movie_id).

(** [x IN (subquery)]. *)
Definition sql_in (x : Z) (l : list Z) : bool := existsb (Z.eqb x) l.

(** The rows of one group of [GROUP BY "movieId"]. *)
Definition events_of (k : Z) (rows : list Rating.t) : list Rating.t :=
  List.filter (fun r => Rating.movieId r =? k) rows.

(** [GROUP BY "movieId"] with [count("userId")] for each group. *)
Definition group_count (rows : list Rating.t) : list (Z * nat) :=
  List.map (fun k => (k, length (events_of k rows)))
    (distinct (List.map Rating.movieId rows)).

(** The select-list entry [CAST(count("userId") AS FLOAT) / (SELECT count ...)]
    of one group; [None] is the SQL error of a zero divisor. *)
Definition similarity_row (total : nat) (g : Z * nat) : option Similar.t :=
  match sql_div (Qc_of_nat (snd g)) (Qc_of_nat total) with
  | None => None
  | Some s => Some (Similar.mk (fst g) s)
  end.

(** The same entry for a non-zero divisor. *)
Definition ratio_row (total : nat) (g : Z * nat) : Similar.t :=
  Similar.mk (fst g) (Qc_of_nat (snd g) / Qc_of_nat total)%Qc.

(** [FROM ratings WHERE "rating" > 4 AND "userId" in (...)]: the highly-rated
    events of the members of the seed cohort. *)
Definition cohort_events (ratings : list Rating.t) (movie_id : Z) : list Rating.t :=
  List.filter
    (fun r => highly_rated r && sql_in (Rating.userId r) (cohort_users ratings movie_id))
    ratings.

(** [WHERE similarity_score > 0.1]. *)
Definition above_noise (s : Similar.t) : bool :=
  Qc_ltb one_tenth (Similar.similarity_score s).

(** The statement of [get_similar_recs]. [None] is a run-time SQL error. *)
Definition similar_recs_query (ratings : list Rating.t) (movie_id : Z)
  : option (list Similar.t) :=
  let total := length (cohort_rows ratings movie_id) in
  match select_all (similarity_row total)
          (group_count (cohort_events ratings movie_id)) with
  | None => None
  | Some similarity_calculations =>
      Some (sort_desc Similar.similarity_score
              (List.filter above_noise similarity_calculations))
  end.

(** [ratings r INNER JOIN frequent_users fu ON r."userId" = fu."userId"]:
    one copy of a rating for every matching row of [frequent_users]. *)
Definition join_users (ratings : list Rating.t) (frequent_users : list Z)
  : list Rating.t :=
  flat_map
    (fun r => List.map (fun _ => r)
                (List.filter (fun u => Rating.userId r =? u) frequent_users))
    ratings.

(** [ratings r INNER JOIN similar_movies sm ON r."movieId" = sm."movieId"]. *)
Definition join_movies (ratings : list Rating.t) (similar_movies : list Z)
  : list Rating.t :=
  flat_map
    (fun r => List.map (fun _ => r)
                (List.filter (fun k => Rating.movieId r =? k) similar_movies))
    ratings.

(** The statement of [get_all_user_recs]: the highly-rated events of every
    movie whose cohort-relative score exceeds [0.1]. *)
Definition all_user_recs_query (ratings : list Rating.t) (movie_id : Z)
  : option (list Rating.t) :=
  let frequent_users := cohort_users ratings movie_id in
  let grouped :=
    group_count (List.filter highly_rated (join_users ratings frequent_users)) in
  (* HAVING COUNT(r."userId") > 0 *)
  let kept := List.filter (fun g : Z * nat => (0 <? snd g)%nat) grouped in
  match select_all (similarity_row (length frequent_users)) kept with
  | None => None
  | Some movie_counts =>
      let similar_movies :=
        List.map Similar.movieId (List.filter above_noise movie_counts) in
      Some (List.filter highly_rated (join_movies ratings similar_movies))
  end.

(** ** The data source and [execute_query] *)

(** The statements the application sends. *)
Inductive Query : Type :=
| QSimilarRecs (movie_id : Z)
| QAllUserRecs (movie_id : Z)
| QMovies.

(** A snapshot of the store together with its failure behaviour:
    [engine_fails] makes [get_database_connection] raise, [query_fails q]
    makes the execution of [q] raise inside the [try] of [execute_query]. *)
Record DataSource : Type := mkDataSource {
  ratings : list Rating.t;
  movies : list Movie.t;
  engine_fails : bool;
  query_fails : Query -> bool
}.

Inductive Exn : Type :=
| EngineError      (* raised by [create_engine] *)
| AttributeError   (* ['NoneType' object has no attribute 'empty'] *)
| TypeError.       (* [pd.merge] applied to [None] *)

Inductive Outcome (A : Type) : Type :=
| Return (a : A)
| Raise (e : Exn).
Arguments Return {A} a.
Arguments Raise {A} e.

(** [execute_query]: the engine is created outside the [try]; every
    exception inside it is printed and replaced by [None]. [result] is the
    evaluation of the statement on the snapshot, [None] for an SQL error. *)
Definition execute_query {A : Type} (ds : DataSource) (q : Query)
    (result : option A) : Outcome (option A) :=
  if engine_fails ds then Raise EngineError
  else if query_fails ds q then Return None
  else Return result.

Definition get_movies (ds : DataSource) : Outcome (option (list Movie.t)) :=
  execute_query ds QMovies (Some (movies ds)).

Definition get_similar_recs (ds : DataSource) (movieId : Z)
  : Outcome (option (list Similar.t)) :=
  execute_query ds (QSimilarRecs movieId) (similar_recs_query (ratings ds) movieId).

Definition get_all_user_recs (ds : DataSource) (movieId : Z)
  : Outcome (option (list Rating.t)) :=
  execute_query ds (QAllUserRecs movieId) (all_user_recs_query (ratings ds) movieId).

(** [to_python_type] turns a NumPy integer into the Python integer of the
    same value; identifiers are integers here, so the value is unchanged. *)
Definition to_python_type (value : Z) : Z := value.

(** ** The memoisation of [st.cache_data] *)

(** One memo table per decorated function, keyed by the argument. A table
    may lose entries at any time (the [ttl]); a computed value, [None]
    included, is stored; an exception stores nothing. *)
Record Cache : Type := mkCache {
  movies_memo : option (option (list Movie.t));
  similar_memo : gmap Z (option (list Similar.t));
  all_users_memo : gmap Z (option (list Rating.t))
}.

Definition empty_cache : Cache := mkCache None ∅ ∅.

(** Computations that read and extend the memo tables and may raise. *)
Definition M (A : Type) : Type := Cache -> Outcome A * Cache.

Definition ret {A : Type} (a : A) : M A := fun c => (Return a, c).

Definition raise {A : Type} (e : Exn) : M A := fun c => (Raise e, c).

Definition bind {A B : Type} (m : M A) (k : A -> M B) : M B :=
  fun c =>
    match m c with
    | (Return a, c') => k a c'
    | (Raise e, c') => (Raise e, c')
    end.

Notation "'let*' x ':=' m 'in' k" := (bind m (fun x => k))
  (at level 10, x name, m at level 100, k at level 200).

Definition load_movies (ds : DataSource) : M (option (list Movie.t)) :=
  fun c =>
    match movies_memo c with
    | Some v => (Return v, c)
    | None =>
        match get_movies ds with
        | Return v => (Return v, mkCache (Some v) (similar_memo c) (all_users_memo c))
        | Raise e => (Raise e, c)
        end
    end.

Definition get_cached_similar_recs (ds : DataSource) (movie_id : Z)
  : M (option (list Similar.t)) :=
  fun c =>
    match similar_memo c !! movie_id with
    | Some v => (Return v, c)
    | None =>
        match get_similar_recs ds movie_id with
        | Return v =>
            (Return v,
             mkCache (movies_memo c) (<[movie_id := v]> (similar_memo c)) (all_users_memo c))
        | Raise e => (Raise e, c)
        end
    end.

Definition get_cached_all_user_recs (ds : DataSource) (movie_id : Z)
  : M (option (list Rating.t)) :=
  fun c =>
    match all_users_memo c !! movie_id with
    | Some v => (Return v, c)
    | None =>
        match get_all_user_recs ds movie_id with
        | Return v =>
            (Return v,
             mkCache (movies_memo c) (similar_memo c) (<[movie_id := v]> (all_users_memo c)))
        | Raise e => (Raise e, c)
        end
    end.

(** ** The data-frame operations of [recommendation] *)

(** [series.value_counts()]: each value with its number of occurrences, the
    most frequent first. *)
Definition value_counts (col : list Z) : list (Z * nat) :=
  sort_desc (fun g : Z * nat => Qc_of_nat (snd g))
    (List.map (fun k => (k, length (List.filter (Z.eqb k) col))) (distinct col)).

(** [all_users["movieId"].value_counts() / len(all_users["userId"].unique())]
    with the columns renamed to [movieId], [count]. *)
Definition all_user_recs (all_users : list Rating.t) : list Counted.t :=
  let n := length (distinct (List.map Rating.userId all_users)) in
  List.map (fun g : Z * nat => Counted.mk (fst g) (Qc_of_nat (snd g) / Qc_of_nat n)%Qc)
    (value_counts (List.map Rating.movieId all_users)).

(** The cells one side contributes to a key: its matching rows, or one
    [NaN] when it has none. *)
Definition or_nan {A : Type} (l : list A) : list (option A) :=
  match l with
  | [] => [None]
  | _ => List.map Some l
  end.

(** The [similarity_score] cells of the left frame for a key. *)
Definition left_cells (k : Z) (left : list Similar.t) : list (option Qc) :=
  or_nan (List.map Similar.similarity_score
            (List.filter (fun l => Similar.movieId l =? k) left)).

(** The [count] cells of the right frame for a key. *)
Definition right_cells (k : Z) (right : list Counted.t) : list (option Qc) :=
  or_nan (List.map Counted.count
            (List.filter (fun r => Counted.movieId r =? k) right)).

(** The key column of the outer merge: the union of the keys, ascending. *)
Definition merge_keys (left : list Similar.t) (right : list Counted.t) : list Z :=
  sort_asc (distinct (List.map Similar.movieId left ++ List.map Counted.movieId right)).

(** [pd.merge(left, right, on='movieId', how='outer')]: the union of the
    keys in ascending order, every left row of a key paired with every right
    row of that key. *)
Definition merge_outer (left : list Similar.t) (right : list Counted.t)
  : list Merged.t :=
  flat_map
    (fun k =>
       flat_map
         (fun s => List.map (fun c => Merged.mk k s c) (right_cells k right))
         (left_cells k left))
    (merge_keys left right).

(** [fillna(v)] on one cell. *)
Definition fillna (v : Qc) (x : option Qc) : Qc :=
  match x with
  | Some y => y
  | None => v
  end.

(** [replace(a, b)] on one cell. *)
Definition replace (a b x : Qc) : Qc := if Qc_eqb x a then b else x.

(** The larger of two numbers, for the formula [affinity / max(popularity, 1)]
    of the specification. *)
Definition Qc_max (x y : Qc) : Qc := if Qc_ltb x y then y else x.

(** [fillna(0)] followed by the assignment of the [score] column. *)
Definition with_score (r : Merged.t) : Combined.t :=
  let s := fillna 0%Qc (Merged.similarity_score r) in
  let c := fillna 0%Qc (Merged.count r) in
  Combined.mk (Merged.movieId r) s c (s / replace 0 1 c)%Qc.

(** [combined_recommendations] after [sort_values("score", ascending=False)]. *)
Definition combined_recommendations (similar_user_recs : list Similar.t)
    (all_users : list Rating.t) : list Combined.t :=
  sort_desc Combined.score
    (List.map with_score (merge_outer similar_user_recs (all_user_recs all_users))).

(** [frame.head(n)]. *)
Definition head {A : Type} (n : nat) (l : list A) : list A := firstn n l.

(** [pd.merge(left, right, on="movieId")]: the inner join, in the order of
    the left rows. *)
Definition merge_inner (left : list Combined.t) (right : list Movie.t)
  : list Result.t :=
  flat_map
    (fun l =>
       List.map
         (fun m => Result.mk (Combined.movieId l) (Combined.similarity_score l)
                     (Combined.count l) (Combined.score l)
                     (Movie.title m) (Movie.genres m))
         (List.filter (fun m => Movie.movieId m =? Combined.movieId l) right))
    left.

(** [frame.empty]. *)
Definition is_empty {A : Type} (l : list A) : bool :=
  match l with
  | [] => true
  | _ => false
  end.

(** ** [recommendation] *)

(** The body of the [try]. *)
Definition recommendation_try (ds : DataSource) (movie_id : Z) : M (list Result.t) :=
  let movie_id := to_python_type movie_id in
  let* similar_user_recs := get_cached_similar_recs ds movie_id in
  let* all_users := get_cached_all_user_recs ds movie_id in
  match all_users with
  | None => raise AttributeError
  | Some all_users =>
      if negb (is_empty all_users) then
        match similar_user_recs with
        | None => raise TypeError
        | Some similar_user_recs =>
            let combined := combined_recommendations similar_user_recs all_users in
            let* all_movies := load_movies ds in
            match all_movies with
            | None => raise TypeError
            | Some all_movies => ret (merge_inner (head 10 combined) all_movies)
            end
        end
      else ret []
  end.

(** What the caller of [recommendation] observes: the returned frame and
    the message handed to [st.error], if any. *)
Record Reply : Type := mkReply {
  frame : list Result.t;
  st_error : option Exn
}.

(** [recommendation]: the [try] with its [except Exception] handler. *)
Definition recommendation (ds : DataSource) (movie_id : Z) (c : Cache)
  : Reply * Cache :=
  match recommendation_try ds movie_id c with
  | (Return results, c') => (mkReply results None, c')
  | (Raise e, c') => (mkReply [] (Some e), c')
  end.

(** ** Memo tables that agree with the data source *)

(** Every stored value is the one the decorated function returns on this
    data source. The empty tables satisfy this, and so does any set of
    tables after entries have expired. *)
Definition coherent (ds : DataSource) (c : Cache) : Prop :=
  (forall v, movies_memo c = Some v -> get_movies ds = Return v) /\
  (forall m v, similar_memo c !! m = Some v -> get_similar_recs ds m = Return v) /\
  (forall m v, all_users_memo c !! m = Some v -> get_all_user_recs ds m = Return v).

(** The reply of [recommendation] as a function of what the three decorated
    functions deliver, in the order in which the body consults them. *)
Definition reply_of (similar : Outcome (option (list Similar.t)))
    (events : Outcome (option (list Rating.t)))
    (all_movies : Outcome (option (list Movie.t))) : Reply :=
  match similar with
  | Raise e => mkReply [] (Some e)
  | Return similar_user_recs =>
      match events with
      | Raise e => mkReply [] (Some e)
      | Return None => mkReply [] (Some AttributeError)
      | Return (Some all_users) =>
          if is_empty all_users then mkReply [] None
          else
            match similar_user_recs with
            | None => mkReply [] (Some TypeError)
            | Some similar_user_recs =>
                match all_movies with
                | Raise e => mkReply [] (Some e)
                | Return None => mkReply [] (Some TypeError)
                | Return (Some all_movies) =>
                    mkReply
                      (merge_inner
                         (head 10 (combined_recommendations similar_user_recs all_users))
                         all_movies)
                      None
                end
            end
      end
  end.

(** ** Sample data *)

Definition rated (u m : Z) (n : Z) (d : positive) : Rating.t :=
  Rating.mk u m (Q2Qc (n # d)) 0.

Definition sample : list Rating.t :=
  [rated 1 10 5 1; rated 2 10 9 2; rated 1 20 5 1; rated 3 10 4 1;
   rated 2 30 5 1; rated 1 30 5 1; rated 3 20 5 1; rated 2 40 3 1].

Definition sample_movies : list Movie.t :=
  [Movie.mk 10 "A" "Drama"; Movie.mk 20 "B" "Comedy"].

(** Users 1 and 2 rated movie 10 highly; user 1 also rated movie 20 highly. *)
Definition shared_ratings : list Rating.t :=
  [rated 1 10 5 1; rated 2 10 5 1; rated 1 20 5 1].

Definition shared_ds : DataSource :=
  mkDataSource shared_ratings sample_movies false (fun _ => false).

(** The data of [sample_ds] behind a store whose queries all fail. *)
Definition failing_ds : DataSource :=
  mkDataSource sample sample_movies false (fun _ => true).

Definition sample_ds : DataSource :=
  mkDataSource sample sample_movies false (fun _ => false).

(** User 1 rated movie 20 twice, at two timestamps. *)
Definition repeated_ratings : list Rating.t :=
  [Rating.mk 1 10 (Q2Qc 5) 100; Rating.mk 1 20 (Q2Qc 5) 200;
   Rating.mk 1 20 (Q2Qc (9 # 2)) 300].

Definition repeated_ds : DataSource :=
  mkDataSource repeated_ratings sample_movies false (fun _ => false).

(** ** The retained movies of [get_all_user_recs] *)

(** The CTE [similar_movies] when no division fails: the movies whose
    join-counted score exceeds [0.1]. *)
Definition retained_movies (ratings : list Rating.t) (movie_id : Z) : list Z :=
  List.map Similar.movieId
    (List.filter above_noise
       (List.map (ratio_row (length (cohort_users ratings movie_id)))
          (List.filter (fun g : Z * nat => (0 <? snd g)%nat)
             (group_count
                (List.filter highly_rated
                   (join_users ratings (cohort_users ratings movie_id))))))).

(** ** What a decorated function delivers *)

(** The stored value on a hit, the computation on a miss. *)
Definition cached_value {A : Type} (memo : option A) (compute : Outcome A)
  : Outcome A :=
  match memo with
  | Some v => Return v
  | None => compute
  end.

(** Every entry of [c] is an entry of [c'] with the same value. *)
Definition extends (c c' : Cache) : Prop :=
  (forall v, movies_memo c = Some v -> movies_memo c' = Some v) /\
  (forall k v, similar_memo c !! k = Some v -> similar_memo c' !! k = Some v) /\
  (forall k v, all_users_memo c !! k = Some v -> all_users_memo c' !! k = Some v).

(** ** Title cleaning and the batch update ([db_clean_titles.py]) *)

(** A row of the [movies] table with the added [clean_title] column, which
    is NULL until it is written. *)
Module Titled.
Record t := mk { movieId : Z; title : string; genres : string;
                 clean_title : option string }.
End Titled.

(** The character class [a-zA-Z0-9 ] of the pattern. A title is the string of
    its UTF-8 bytes: every byte of a character outside ASCII is outside the
    class, so dropping bytes and dropping characters give the same title. *)
Definition allowed_char (a : Ascii.ascii) : bool :=
  let n := Ascii.nat_of_ascii a in
  ((97 <=? n)%nat && (n <=? 122)%nat) || ((65 <=? n)%nat && (n <=? 90)%nat)
  || ((48 <=? n)%nat && (n <=? 57)%nat) || (n =? 32)%nat.

(** [re.sub("[^a-zA-Z0-9 ]", "", title)]. *)
Fixpoint clean_title (title : string) : string :=
  match title with
  | EmptyString => EmptyString
  | String a rest =>
      if allowed_char a then String a (clean_title rest) else clean_title rest
  end.

(** The store the setup script works on: the table and what fails.
    [statement_fails i] makes the [i]-th [connection.execute] of a batch
    raise, [commit_fails] makes the commit at the end of [engine.begin()]
    raise. *)
Record SetupDb : Type := mkSetupDb {
  titled_movies : list Titled.t;
  setup_engine_fails : bool;
  titles_query_fails : bool;
  statement_fails : nat -> bool;
  commit_fails : bool
}.

(** [execute_query] on explicit failure flags. *)
Definition execute_query_with {A : Type} (engine_down query_down : bool)
    (result : option A) : Outcome (option A) :=
  if engine_down then Raise EngineError
  else if query_down then Return None
  else Return result.

(** [get_titles]: [SELECT "movieId","title" FROM movies]. *)
Definition get_titles (db : SetupDb) : Outcome (option (list (Z * string))) :=
  execute_query_with (setup_engine_fails db) (titles_query_fails db)
    (Some (List.map (fun row => (Titled.movieId row, Titled.title row))
             (titled_movies db))).

(** The loop [for params in params_list: connection.execute(query, params)],
    counting the statements from [i]; [None] when one of them raises. *)
Fixpoint execute_each {P T : Type} (stmt : P -> T -> T) (fails : nat -> bool)
    (i : nat) (params_list : list P) (tbl : T) : option T :=
  match params_list with
  | [] => Some tbl
  | params :: rest =>
      if fails i then None
      else execute_each stmt fails (S i) rest (stmt params tbl)
  end.

(** [execute_many_query]: the engine is created outside the [try]; the
    transaction of [engine.begin()] is committed when the block is left by the
    [return] and rolled back when an exception leaves it; every exception is
    logged and replaced by [-1]. *)
Definition execute_many_query {P T : Type} (stmt : P -> T -> T)
    (engine_down : bool) (fails : nat -> bool) (commit_down : bool)
    (params_list : list P) (tbl : T) : Outcome Z * T :=
  if engine_down then (Raise EngineError, tbl)
  else
    match execute_each stmt fails 0 params_list tbl with
    | None => (Return (-1), tbl)
    | Some tbl' =>
        if commit_down then (Return (-1), tbl)
        else (Return (Z.of_nat (length params_list)), tbl')
    end.

(** [UPDATE movies SET clean_title = :clean_title WHERE "movieId" = :movieId]
    on one row. *)
Definition set_clean_title (params : string * Z) (row : Titled.t) : Titled.t :=
  if Titled.movieId row =? snd params
  then Titled.mk (Titled.movieId row) (Titled.title row) (Titled.genres row)
         (Some (fst params))
  else row.

(** The statement on the table. The list stands for the rows of the table
    with their multiplicity; the order in which a later [SELECT] returns them
    is the store's affair and is not the order of the list. *)
Definition update_statement (params : string * Z) (tbl : list Titled.t)
  : list Titled.t :=
  List.map (set_clean_title params) tbl.

(** [update_clean_titles]: each tuple is read as [(title, movieId)]. *)
Definition update_clean_titles (db : SetupDb) (clean_titles : list (string * Z))
  : Outcome Z * list Titled.t :=
  execute_many_query update_statement (setup_engine_fails db) (statement_fails db)
    (commit_fails db) clean_titles (titled_movies db).

(** The script [db_clean_titles.py]: the frame of [get_titles] gets the column
    of cleaned titles, and the pairs (cleaned title, movieId) are written
    back. The result of [update_clean_titles] is kept for inspection. *)
Definition db_clean_titles (db : SetupDb) : Outcome Z * list Titled.t :=
  match get_titles db with
  | Raise e => (Raise e, titled_movies db)
  | Return None => (Raise TypeError, titled_movies db)
  | Return (Some titles_df) =>
      update_clean_titles db
        (List.map (fun row => (clean_title (snd row), fst row)) titles_df)
  end.

(** The rows one after the other through all statements of a batch. *)
Fixpoint after_batch (params_list : list (string * Z)) (row : Titled.t) : Titled.t :=
  match params_list with
  | [] => row
  | params :: rest => after_batch rest (set_clean_title params row)
  end.

(** The selection of [main]:
    [movies[movies['title'] == selected_movie]['movieId'].iloc[0]]; [None] is
    the [IndexError] of [iloc[0]] on an empty selection. *)
Definition selected_movie_id (all_movies : list Movie.t) (selected_movie : string)
  : option Z :=
  match List.filter (fun m => String.eqb (Movie.title m) selected_movie) all_movies with
  | [] => None
  | m :: _ => Some (Movie.movieId m)
  end.

(** [movies['title'].tolist()]: the options of the selection box. *)
Definition movie_titles (all_movies : list Movie.t) : list string :=
  List.map Movie.title all_movies.

Definition titled_sample : list Titled.t :=
  [Titled.mk 1 "Toy Story (1995)" "Animation" None;
   Titled.mk 2 "Se7en: Director's Cut!" "Thriller" None].

Definition titled_db : SetupDb :=
  mkSetupDb titled_sample false false (fun _ => false) false.

(** The second statement of a batch fails. *)
Definition titled_db_failing : SetupDb :=
  mkSetupDb titled_sample false false (fun i => (i =? 1)%nat) false.

(** The all-users query works, the other two fail. *)
Definition half_failing_ds : DataSource :=
  mkDataSource sample sample_movies false
    (fun q => match q with QAllUserRecs _ => false | _ => true end).

(** ** [create_indexes] *)

(** What an index is built on. *)
Record IndexDef : Type := mkIndexDef {
  idx_table : string;
  idx_columns : list string
}.

(** The six statements of [index_queries], each as the name of its index
    and its definition. *)
Definition index_queries : list (string * IndexDef) :=
  [("idx_ratings_movieid", mkIndexDef "ratings" ["movieId"]);
   ("idx_ratings_userid", mkIndexDef "ratings" ["userId"]);
   ("idx_ratings_rating", mkIndexDef "ratings" ["rating"]);
   ("idx_ratings_movieid_rating", mkIndexDef "ratings" ["movieId"; "rating"]);
   ("idx_ratings_userid_rating", mkIndexDef "ratings" ["userId"; "rating"]);
   ("idx_movies_movieid", mkIndexDef "movies" ["movieId"])].

(** [CREATE INDEX IF NOT EXISTS name ON ...] on the catalogue of indexes: an
    index of that name, whatever it is built on, makes the statement a
    no-op. *)
Definition create_index_if_not_exists (q : string * IndexDef)
    (catalogue : gmap string IndexDef) : gmap string IndexDef :=
  match catalogue !! fst q with
  | Some _ => catalogue
  | None => <[fst q := snd q]> catalogue
  end.

(** [create_indexes]: the statements run in one transaction of
    [engine.begin()]; [True] after the commit, [False] for any exception. *)
Definition create_indexes (engine_down : bool) (fails : nat -> bool)
    (commit_down : bool) (catalogue : gmap string IndexDef)
  : Outcome bool * gmap string IndexDef :=
  if engine_down then (Raise EngineError, catalogue)
  else
    match execute_each create_index_if_not_exists fails 0 index_queries catalogue with
    | None => (Return false, catalogue)
    | Some catalogue' =>
        if commit_down then (Return false, catalogue)
        else (Return true, catalogue')
    end.

(** Two sets of tables on which the three decorated functions deliver the
    same for a movie. *)
Definition same_view (ds : DataSource) (movie_id : Z) (c c' : Cache) : Prop :=
  cached_value (similar_memo c' !! movie_id) (get_similar_recs ds movie_id)
  = cached_value (similar_memo c !! movie_id) (get_similar_recs ds movie_id) /\
  cached_value (all_users_memo c' !! movie_id) (get_all_user_recs ds movie_id)
  = cached_value (all_users_memo c !! movie_id) (get_all_user_recs ds movie_id) /\
  cached_value (movies_memo c') (get_movies ds)
  = cached_value (movies_memo c) (get_movies ds).

(** ** Comparisons on rationals *)

Lemma Qc_ltb_lt (x y : Qc) : Qc_ltb x y = true <-> (x < y)%Qc.
Proof.
  unfold Qc_ltb. rewrite Qclt_alt.
  destruct (x ?= y)%Qc; split; congruence.
Qed.

Lemma Qc_ltb_ge (x y : Qc) : Qc_ltb x y = false <-> (y <= x)%Qc.
Proof.
  split; intros H.
  - apply Qcnot_lt_le. intros Hlt. apply Qc_ltb_lt in Hlt. congruence.
  - destruct (Qc_ltb x y) eqn:E; [|reflexivity].
    apply Qc_ltb_lt in E. exfalso. exact (Qcle_not_lt _ _ H E).
Qed.

Lemma Qc_eqb_eq (x y : Qc) : Qc_eqb x y = true <-> x = y.
Proof.
  unfold Qc_eqb. rewrite Qceq_alt.
  destruct (x ?= y)%Qc; split; congruence.
Qed.

Lemma Qc_eqb_neq (x y : Qc) : Qc_eqb x y = false <-> x <> y.
Proof.
  rewrite <- Qc_eqb_eq. destruct (Qc_eqb x y); split; congruence.
Qed.

Lemma Qc_of_nat_le (a b : nat) : (a <= b)%nat -> (Qc_of_nat a <= Qc_of_nat b)%Qc.
Proof.
  intros H. unfold Qc_of_nat, Qcle. simpl. rewrite <- Zle_Qle. lia.
Qed.

Lemma Qc_of_nat_0 : Qc_of_nat 0 = 0%Qc.
Proof. apply Qc_is_canon. reflexivity. Qed.

Lemma Qc_of_nat_pos (n : nat) : (0 < n)%nat -> (0 < Qc_of_nat n)%Qc.
Proof.
  intros H. unfold Qc_of_nat, Qclt. simpl.
  change (inject_Z 0 < inject_Z (Z.of_nat n))%Q. rewrite <- Zlt_Qlt. lia.
Qed.

Lemma Qc_of_nat_eq_0 (n : nat) : Qc_of_nat n = 0%Qc <-> n = 0%nat.
Proof.
  split; intros H.
  - destruct n as [|n]; [reflexivity|].
    pose proof (Qc_of_nat_pos (S n) ltac:(lia)) as Hp.
    rewrite H in Hp. exfalso. exact (Qclt_not_eq _ _ Hp eq_refl).
  - subst. apply Qc_of_nat_0.
Qed.

Lemma Qc_div_self (x : Qc) : x <> 0%Qc -> (x / x)%Qc = 1%Qc.
Proof. intros H. unfold Qcdiv. apply Qcmult_inv_r, H. Qed.

Lemma Qc_div_1 (x : Qc) : (x / 1)%Qc = x.
Proof.
  rewrite <- (Qcmult_1_l (x / 1)). apply Qcmult_div_r. discriminate.
Qed.

Lemma Qc_div_mul (x y : Qc) : y <> 0%Qc -> (x / y * y)%Qc = x.
Proof. intros H. rewrite Qcmult_comm. apply Qcmult_div_r, H. Qed.

Lemma Qc_ratio_bounds (c t : nat) :
  (c <= t)%nat -> (0 < t)%nat ->
  (0 <= Qc_of_nat c / Qc_of_nat t)%Qc /\ (Qc_of_nat c / Qc_of_nat t <= 1)%Qc.
Proof.
  intros Hct Ht.
  pose proof (Qc_of_nat_pos t Ht) as Hpos.
  assert (Hne : Qc_of_nat t <> 0%Qc).
  { intros E. rewrite E in Hpos. exact (Qclt_not_eq _ _ Hpos eq_refl). }
  split; apply (Qcmult_lt_0_le_reg_r _ _ (Qc_of_nat t) Hpos);
    rewrite (Qc_div_mul _ _ Hne).
  - rewrite Qcmult_0_l, <- Qc_of_nat_0. apply Qc_of_nat_le. lia.
  - rewrite Qcmult_1_l. apply Qc_of_nat_le, Hct.
Qed.

(** ** Sorting *)

Section SortingFacts.
Context {A : Type} (key : A -> Qc).

Lemma insert_desc_perm (x : A) (l : list A) :
  Permutation (x :: l) (insert_desc key x l).
Proof.
  induction l as [|y l IH]; simpl.
  - apply Permutation_refl.
  - destruct (Qc_ltb (key x) (key y)).
    + eapply perm_trans; [apply perm_swap|]. apply perm_skip, IH.
    + apply Permutation_refl.
Qed.

Lemma sort_desc_perm (l : list A) : Permutation l (sort_desc key l).
Proof.
  induction l as [|x l IH]; simpl.
  - apply perm_nil.
  - eapply perm_trans; [apply perm_skip, IH|]. apply insert_desc_perm.
Qed.

Lemma sort_desc_In (x : A) (l : list A) : In x (sort_desc key l) <-> In x l.
Proof.
  split; apply Permutation_in.
  - apply Permutation_sym, sort_desc_perm.
  - apply sort_desc_perm.
Qed.

Lemma insert_desc_sorted (x : A) (l : list A) :
  sorted_desc key l -> sorted_desc key (insert_desc key x l).
Proof.
  unfold sorted_desc.
  induction l as [|y l IH]; simpl; intros Hs.
  - constructor; constructor.
  - inversion Hs as [|? ? Hl Hy]; subst.
    destruct (Qc_ltb (key x) (key y)) eqn:E.
    + constructor; [apply IH, Hl|].
      apply List.Forall_forall. intros z Hz.
      apply (Permutation_in _ (Permutation_sym (insert_desc_perm x l))) in Hz.
      destruct Hz as [<-|Hz].
      * apply Qclt_le_weak, Qc_ltb_lt, E.
      * rewrite List.Forall_forall in Hy. apply Hy, Hz.
    + apply Qc_ltb_ge in E.
      constructor; [exact Hs|].
      constructor; [exact E|].
      rewrite List.Forall_forall in Hy |- *. intros z Hz.
      eapply Qcle_trans; [apply Hy, Hz | exact E].
Qed.

Lemma sort_desc_sorted (l : list A) : sorted_desc key (sort_desc key l).
Proof.
  induction l as [|x l IH]; simpl.
  - constructor.
  - apply insert_desc_sorted, IH.
Qed.

Lemma sorted_desc_filter (p : A -> bool) (l : list A) :
  sorted_desc key l -> sorted_desc key (List.filter p l).
Proof.
  unfold sorted_desc. induction 1 as [|x l Hl IH Hx]; simpl.
  - constructor.
  - destruct (p x); [|exact IH].
    constructor; [exact IH|].
    rewrite List.Forall_forall in Hx |- *. intros z Hz.
    apply filter_In in Hz. apply Hx, Hz.
Qed.

Lemma sorted_desc_firstn (n : nat) (l : list A) :
  sorted_desc key l -> sorted_desc key (firstn n l).
Proof.
  unfold sorted_desc. intros Hs. revert n.
  induction Hs as [|x l Hl IH Hx]; intros [|n]; simpl; try constructor.
  - apply IH.
  - rewrite List.Forall_forall in Hx |- *. intros z Hz.
    apply Hx. rewrite <- (firstn_skipn n l). apply in_or_app. left. exact Hz.
Qed.
End SortingFacts.

Lemma sorted_desc_map {A B : Type} (f : A -> B) (key : B -> Qc) (l : list A) :
  sorted_desc key (List.map f l) <-> sorted_desc (fun a => key (f a)) l.
Proof.
  unfold sorted_desc. induction l as [|x l IH]; simpl.
  - split; constructor.
  - split; intros Hs; inversion Hs as [|? ? Hl Hx]; subst; constructor.
    + apply IH, Hl.
    + rewrite List.Forall_forall in Hx |- *. intros z Hz. apply Hx, in_map, Hz.
    + apply IH, Hl.
    + rewrite List.Forall_forall in Hx |- *. intros z Hz.
      apply in_map_iff in Hz. destruct Hz as (a & <- & Ha). apply Hx, Ha.
Qed.

Lemma insert_asc_perm (x : Z) (l : list Z) : Permutation (x :: l) (insert_asc x l).
Proof.
  induction l as [|y l IH]; simpl.
  - apply Permutation_refl.
  - destruct (x <? y).
    + apply Permutation_refl.
    + eapply perm_trans; [apply perm_swap|]. apply perm_skip, IH.
Qed.

Lemma sort_asc_perm (l : list Z) : Permutation l (sort_asc l).
Proof.
  induction l as [|x l IH]; simpl.
  - apply perm_nil.
  - eapply perm_trans; [apply perm_skip, IH|]. apply insert_asc_perm.
Qed.

(** ** Distinct values and keyed lists *)

Lemma distinct_In (x : Z) (l : list Z) : In x (distinct l) <-> In x l.
Proof.
  induction l as [|y l IH]; simpl; [tauto|].
  rewrite filter_In, IH.
  destruct (Z.eqb_spec x y) as [->|Hne]; simpl.
  - split; [intros [?|[? ?]]; auto | auto].
  - split.
    + intros [?|[? _]]; auto.
    + intros [?|?]; [congruence | right; split; auto].
Qed.

Lemma NoDup_filter_list {A : Type} (p : A -> bool) (l : list A) :
  List.NoDup l -> List.NoDup (List.filter p l).
Proof.
  induction 1 as [|x l Hx Hl IH]; simpl.
  - constructor.
  - destruct (p x); [|exact IH].
    constructor; [|exact IH]. intros Hin. apply filter_In in Hin. tauto.
Qed.

Lemma distinct_NoDup (l : list Z) : List.NoDup (distinct l).
Proof.
  induction l as [|x l IH]; simpl.
  - constructor.
  - constructor.
    + intros Hin. apply filter_In in Hin. destruct Hin as [_ Hin].
      rewrite Z.eqb_refl in Hin. discriminate.
    + apply NoDup_filter_list, IH.
Qed.

Lemma NoDup_map_filter {A B : Type} (f : A -> B) (p : A -> bool) (l : list A) :
  List.NoDup (List.map f l) -> List.NoDup (List.map f (List.filter p l)).
Proof.
  induction l as [|x l IH]; simpl; intros Hn.
  - constructor.
  - inversion Hn as [|? ? Hx Hl]; subst.
    destruct (p x); simpl; [|apply IH, Hl].
    constructor; [|apply IH, Hl].
    intros Hin. apply Hx.
    apply in_map_iff in Hin. destruct Hin as (a & Ha & Hin).
    apply filter_In in Hin. rewrite <- Ha. apply in_map, Hin.
Qed.

Lemma NoDup_map_firstn {A B : Type} (f : A -> B) (n : nat) (l : list A) :
  List.NoDup (List.map f l) -> List.NoDup (List.map f (firstn n l)).
Proof.
  revert n. induction l as [|x l IH]; intros [|n] Hn; simpl; try constructor.
  - inversion Hn as [|? ? Hx Hl]; subst.
    intros Hin. apply Hx.
    apply in_map_iff in Hin. destruct Hin as (a & Ha & Hin).
    rewrite <- Ha. apply in_map.
    rewrite <- (firstn_skipn n l). apply in_or_app. left. exact Hin.
  - inversion Hn; subst. apply IH. assumption.
Qed.

(** A key that occurs once selects at most one row. *)
Lemma filter_key_unique {A : Type} (key : A -> Z) (k : Z) (l : list A) :
  List.NoDup (List.map key l) ->
  (length (List.filter (fun a => (key a =? k)%Z) l) <= 1)%nat.
Proof.
  induction l as [|x l IH]; simpl; intros Hn; [lia|].
  inversion Hn as [|? ? Hx Hl]; subst.
  destruct (Z.eqb_spec (key x) k) as [E|E]; simpl; [|apply IH, Hl].
  assert (List.filter (fun a => key a =? k) l = []) as ->; [|simpl; lia].
  destruct (List.filter (fun a => key a =? k) l) as [|y t] eqn:F; [reflexivity|].
  exfalso. apply Hx.
  assert (Hy : In y (List.filter (fun a => key a =? k) l)) by (rewrite F; left; reflexivity).
  apply filter_In in Hy. destruct Hy as [Hy Hk].
  apply Z.eqb_eq in Hk. rewrite E, <- Hk. apply in_map, Hy.
Qed.

Lemma filter_filter_and {A : Type} (p q : A -> bool) (l : list A) :
  List.filter p (List.filter q l) = List.filter (fun a => q a && p a) l.
Proof.
  induction l as [|x l IH]; simpl; [reflexivity|].
  destruct (q x); simpl; [destruct (p x)|]; rewrite IH; reflexivity.
Qed.

(** ** Select lists *)

Lemma select_all_map {A B : Type} (f : A -> option B) (g : A -> B) (l : list A) :
  (forall x, In x l -> f x = Some (g x)) ->
  select_all f l = Some (List.map g l).
Proof.
  induction l as [|x l IH]; simpl; intros H; [reflexivity|].
  rewrite (H x (or_introl eq_refl)), IH; [reflexivity|].
  intros y Hy. apply H. right. exact Hy.
Qed.

(** ** The queries never raise an SQL error *)

Lemma similarity_row_ratio (total : nat) (g : Z * nat) :
  total <> 0%nat -> similarity_row total g = Some (ratio_row total g).
Proof.
  intros H. unfold similarity_row, sql_div, ratio_row.
  destruct (Qc_eqb (Qc_of_nat total) 0) eqn:E; [|reflexivity].
  apply Qc_eqb_eq, Qc_of_nat_eq_0 in E. contradiction.
Qed.

Lemma group_count_keys (rows : list Rating.t) :
  List.map fst (group_count rows) = distinct (List.map Rating.movieId rows).
Proof.
  unfold group_count. rewrite List.map_map. simpl. apply List.map_id.
Qed.

Lemma group_count_In (rows : list Rating.t) (k : Z) (n : nat) :
  In (k, n) (group_count rows) <->
  In k (List.map Rating.movieId rows) /\ n = length (events_of k rows).
Proof.
  unfold group_count. rewrite in_map_iff. split.
  - intros (k' & E & Hk). inversion E; subst. split; [|reflexivity].
    apply distinct_In, Hk.
  - intros [Hk ->]. exists k. split; [reflexivity|]. apply distinct_In, Hk.
Qed.

Lemma cohort_events_nil (ratings : list Rating.t) (movie_id : Z) :
  cohort_rows ratings movie_id = [] -> cohort_events ratings movie_id = [].
Proof.
  intros H. unfold cohort_events, cohort_users. rewrite H. simpl. clear H.
  induction ratings as [|r l IH]; simpl; [reflexivity|].
  rewrite andb_false_r. exact IH.
Qed.

Lemma join_users_nil (ratings : list Rating.t) : join_users ratings [] = [].
Proof.
  unfold join_users. induction ratings as [|r l IH]; simpl; [reflexivity|exact IH].
Qed.

Lemma similar_recs_query_eq (ratings : list Rating.t) (movie_id : Z) :
  similar_recs_query ratings movie_id =
  Some (sort_desc Similar.similarity_score
          (List.filter above_noise
             (List.map (ratio_row (length (cohort_rows ratings movie_id)))
                (group_count (cohort_events ratings movie_id))))).
Proof.
  unfold similar_recs_query.
  destruct (cohort_rows ratings movie_id) as [|r0 rs] eqn:E.
  - rewrite (cohort_events_nil _ _ E). reflexivity.
  - rewrite (select_all_map _ (ratio_row (length (r0 :: rs)))); [reflexivity|].
    intros g _. apply similarity_row_ratio. simpl. lia.
Qed.

Lemma all_user_recs_query_eq (ratings : list Rating.t) (movie_id : Z) :
  all_user_recs_query ratings movie_id =
  Some (List.filter highly_rated
          (join_movies ratings
             (List.map Similar.movieId
                (List.filter above_noise
                   (List.map (ratio_row (length (cohort_users ratings movie_id)))
                      (List.filter (fun g : Z * nat => (0 <? snd g)%nat)
                         (group_count
                            (List.filter highly_rated
                               (join_users ratings (cohort_users ratings movie_id)))))))))).
Proof.
  unfold all_user_recs_query.
  destruct (cohort_users ratings movie_id) as [|u0 us] eqn:E.
  - rewrite join_users_nil. reflexivity.
  - rewrite (select_all_map _ (ratio_row (length (u0 :: us)))); [reflexivity|].
    intros g _. apply similarity_row_ratio. simpl. lia.
Qed.

(** ** The similar-user affinity statistic *)

Lemma sql_in_In (x : Z) (l : list Z) : sql_in x l = true <-> In x l.
Proof.
  unfold sql_in. rewrite existsb_exists. split.
  - intros (y & Hy & E). apply Z.eqb_eq in E. subst. exact Hy.
  - intros H. exists x. split; [exact H | apply Z.eqb_refl].
Qed.

Lemma get_similar_recs_runs (ds : DataSource) (movie_id : Z) :
  engine_fails ds = false -> query_fails ds (QSimilarRecs movie_id) = false ->
  get_similar_recs ds movie_id = Return (similar_recs_query (ratings ds) movie_id).
Proof.
  intros He Hq. unfold get_similar_recs, execute_query. rewrite He, Hq. reflexivity.
Qed.

Lemma get_all_user_recs_runs (ds : DataSource) (movie_id : Z) :
  engine_fails ds = false -> query_fails ds (QAllUserRecs movie_id) = false ->
  get_all_user_recs ds movie_id = Return (all_user_recs_query (ratings ds) movie_id).
Proof.
  intros He Hq. unfold get_all_user_recs, execute_query. rewrite He, Hq. reflexivity.
Qed.

(** The events of the target movie among the cohort's events are the rows
    that define the cohort. *)
Lemma cohort_events_target (ratings : list Rating.t) (movie_id : Z) :
  events_of movie_id (cohort_events ratings movie_id) = cohort_rows ratings movie_id.
Proof.
  unfold events_of, cohort_events. rewrite filter_filter_and.
  unfold cohort_rows. apply filter_ext_in. intros r Hr.
  destruct (Rating.movieId r =? movie_id) eqn:Em;
    destruct (highly_rated r) eqn:Eh; simpl;
    rewrite ?andb_false_r, ?andb_true_r; try reflexivity.
  apply sql_in_In.
  unfold cohort_users, cohort_rows. apply in_map, filter_In.
  rewrite Em, Eh. auto.
Qed.

(** With at most one highly-rated event per user and movie, a movie has no
    more events among the cohort's than the cohort has rows. *)
Lemma cohort_count_le (ratings : list Rating.t) (movie_id k : Z) :
  List.NoDup (List.map (fun r => (Rating.userId r, Rating.movieId r))
                (List.filter highly_rated ratings)) ->
  (length (events_of k (cohort_events ratings movie_id))
   <= length (cohort_rows ratings movie_id))%nat.
Proof.
  intros Hu.
  set (q := fun r => sql_in (Rating.userId r) (cohort_users ratings movie_id)
                     && (Rating.movieId r =? k)).
  assert (HL : events_of k (cohort_events ratings movie_id)
               = List.filter q (List.filter highly_rated ratings)).
  { unfold events_of, cohort_events. rewrite !filter_filter_and.
    apply filter_ext. intros r. unfold q. rewrite andb_assoc. reflexivity. }
  rewrite HL.
  set (L := List.filter q (List.filter highly_rated ratings)).
  assert (Hq : forall r, In r L -> q r = true).
  { intros r Hr. apply filter_In in Hr. tauto. }
  assert (Hn : List.NoDup (List.map Rating.userId L)).
  { apply (NoDup_map_inv (fun u : Z => (u, k))).
    rewrite List.map_map.
    rewrite (map_ext_in _ (fun r => (Rating.userId r, Rating.movieId r))).
    - apply NoDup_map_filter, Hu.
    - intros r Hr. apply Hq in Hr. unfold q in Hr.
      apply andb_true_iff in Hr. destruct Hr as [_ Hr].
      apply Z.eqb_eq in Hr. rewrite Hr. reflexivity. }
  assert (Hi : incl (List.map Rating.userId L) (cohort_users ratings movie_id)).
  { intros u Hin. apply in_map_iff in Hin. destruct Hin as (r & <- & Hr).
    apply Hq in Hr. unfold q in Hr. apply andb_true_iff in Hr.
    apply sql_in_In. tauto. }
  pose proof (NoDup_incl_length Hn Hi) as Hlen.
  unfold cohort_users in Hlen. rewrite !List.length_map in Hlen. exact Hlen.
Qed.

(** C10. When the target movie has a rating event with rating > 4 and the
    query executes, the frame returned by the similar-user affinity operation
    contains the target movie itself with [similarity_score] exactly 1: the
    count of its group and the divisor are the same number. *)
Theorem target_similarity_is_one (ds : DataSource) (movie_id : Z) :
  engine_fails ds = false ->
  query_fails ds (QSimilarRecs movie_id) = false ->
  (exists r, In r (ratings ds) /\ Rating.movieId r = movie_id /\
             (four < Rating.rating r)%Qc) ->
  exists df, get_similar_recs ds movie_id = Return (Some df) /\
             In (Similar.mk movie_id 1%Qc) df.
Proof.
  intros He Hq (r & Hr & Hm & Hh).
  rewrite (get_similar_recs_runs _ _ He Hq), similar_recs_query_eq.
  eexists. split; [reflexivity|].
  assert (Hc : In r (cohort_rows (ratings ds) movie_id)).
  { unfold cohort_rows. apply filter_In. split; [exact Hr|].
    apply andb_true_iff. split; [apply Z.eqb_eq, Hm | apply Qc_ltb_lt, Hh]. }
  set (total := length (cohort_rows (ratings ds) movie_id)).
  assert (Ht : total <> 0%nat).
  { unfold total. destruct (cohort_rows (ratings ds) movie_id); [contradiction|discriminate]. }
  assert (E : ratio_row total (movie_id, total) = Similar.mk movie_id 1%Qc).
  { unfold ratio_row. simpl. f_equal. apply Qc_div_self.
    intros Z0. apply Qc_of_nat_eq_0 in Z0. contradiction. }
  apply sort_desc_In, filter_In. split.
  - rewrite <- E. apply in_map, group_count_In.
    rewrite cohort_events_target. split; [|reflexivity].
    rewrite <- cohort_events_target in Hc. apply filter_In in Hc.
    destruct Hc as [Hc _]. apply in_map_iff. exists r. split; [exact Hm | exact Hc].
  - reflexivity.
Qed.

Lemma target_similarity_is_one_witness :
  exists df, get_similar_recs sample_ds 10 = Return (Some df) /\
             In (Similar.mk 10 1%Qc) df.
Proof.
  apply target_similarity_is_one; [reflexivity | reflexivity |].
  exists (rated 1 10 5 1). split; [simpl; auto|]. split; reflexivity.
Defined.

(** C5, as the code has it. When no user has two highly-rated events for the
    same movie and the query executes, every [similarity_score] returned by
    the similar-user affinity operation lies in the interval [0,1]. *)
Theorem similarity_scores_bounded (ds : DataSource) (movie_id : Z) :
  engine_fails ds = false ->
  query_fails ds (QSimilarRecs movie_id) = false ->
  List.NoDup (List.map (fun r => (Rating.userId r, Rating.movieId r))
                (List.filter highly_rated (ratings ds))) ->
  exists df, get_similar_recs ds movie_id = Return (Some df) /\
             Forall (fun s => (0 <= Similar.similarity_score s)%Qc /\
                              (Similar.similarity_score s <= 1)%Qc) df.
Proof.
  intros He Hq Hu.
  rewrite (get_similar_recs_runs _ _ He Hq), similar_recs_query_eq.
  eexists. split; [reflexivity|].
  apply List.Forall_forall. intros s Hs.
  apply sort_desc_In, filter_In in Hs. destruct Hs as [Hs _].
  apply in_map_iff in Hs. destruct Hs as ([k n] & <- & Hg).
  apply group_count_In in Hg. destruct Hg as [Hk ->].
  unfold ratio_row. simpl.
  apply Qc_ratio_bounds; [apply cohort_count_le, Hu|].
  destruct (cohort_rows (ratings ds) movie_id) eqn:E; [|simpl; lia].
  rewrite (cohort_events_nil _ _ E) in Hk. destruct Hk.
Qed.

Lemma similarity_scores_bounded_witness :
  exists df, get_similar_recs sample_ds 10 = Return (Some df) /\
             Forall (fun s => (0 <= Similar.similarity_score s)%Qc /\
                              (Similar.similarity_score s <= 1)%Qc) df.
Proof.
  apply similarity_scores_bounded; [reflexivity | reflexivity |].
  apply NoDup_ListNoDup, (bool_decide_unpack _). vm_compute. reflexivity.
Defined.

(** C5, as stated, fails: user 1 rated the target movie 10 once and movie 20
    twice, so movie 20 gets two events over a cohort of one row. *)
Lemma similarity_score_above_one :
  exists df s, get_similar_recs repeated_ds 10 = Return (Some df) /\
               In s df /\ Similar.movieId s = 20 /\
               (1 < Similar.similarity_score s)%Qc.
Proof.
  eexists. eexists. split; [vm_compute; reflexivity|].
  split; [left; reflexivity|]. split; reflexivity.
Qed.

(** ** The outer merge and the score column *)

Lemma merge_keys_In (k : Z) (left : list Similar.t) (right : list Counted.t) :
  In k (merge_keys left right) <->
  In k (List.map Similar.movieId left) \/ In k (List.map Counted.movieId right).
Proof.
  unfold merge_keys. rewrite <- in_app_iff.
  rewrite <- (distinct_In k (_ ++ _)). split.
  - apply Permutation_in, Permutation_sym, sort_asc_perm.
  - apply Permutation_in, sort_asc_perm.
Qed.

Lemma merge_outer_In (r : Merged.t) (left : list Similar.t) (right : list Counted.t) :
  In r (merge_outer left right) <->
  In (Merged.movieId r) (merge_keys left right) /\
  In (Merged.similarity_score r) (left_cells (Merged.movieId r) left) /\
  In (Merged.count r) (right_cells (Merged.movieId r) right).
Proof.
  unfold merge_outer. rewrite in_flat_map. split.
  - intros (k & Hk & Hr). apply in_flat_map in Hr. destruct Hr as (s & Hs & Hr).
    apply in_map_iff in Hr. destruct Hr as (c & <- & Hc). simpl. auto.
  - intros (Hk & Hs & Hc). exists (Merged.movieId r). split; [exact Hk|].
    apply in_flat_map. exists (Merged.similarity_score r). split; [exact Hs|].
    apply in_map_iff. exists (Merged.count r). split; [|exact Hc].
    destruct r; reflexivity.
Qed.

Lemma or_nan_In {A : Type} (x : A) (l : list A) :
  In x l -> In (Some x) (or_nan l).
Proof.
  destruct l as [|y l]; [intros []|]. intros H. unfold or_nan. apply in_map, H.
Qed.

(** The key column of [all_user_recs] lists the movies of the events, each
    once. *)
Lemma all_user_recs_keys (all_users : list Rating.t) :
  Permutation (List.map Counted.movieId (all_user_recs all_users))
              (distinct (List.map Rating.movieId all_users)).
Proof.
  unfold all_user_recs, value_counts. rewrite List.map_map. simpl.
  rewrite <- (List.map_map fst (fun k : Z => k)), List.map_id.
  eapply perm_trans.
  - apply Permutation_map, Permutation_sym, sort_desc_perm.
  - rewrite List.map_map. simpl. rewrite List.map_id. apply Permutation_refl.
Qed.

Lemma all_user_recs_In (k : Z) (all_users : list Rating.t) :
  In k (List.map Counted.movieId (all_user_recs all_users)) <->
  In k (List.map Rating.movieId all_users).
Proof.
  rewrite <- (distinct_In k (List.map Rating.movieId all_users)).
  split; apply Permutation_in.
  - apply all_user_recs_keys.
  - apply Permutation_sym, all_user_recs_keys.
Qed.

Lemma right_cells_absent (k : Z) (right : list Counted.t) :
  ~ In k (List.map Counted.movieId right) -> right_cells k right = [None].
Proof.
  intros H. unfold right_cells.
  destruct (List.filter (fun r => Counted.movieId r =? k) right) as [|c t] eqn:F;
    [reflexivity|].
  exfalso. apply H.
  assert (Hc : In c (List.filter (fun r => Counted.movieId r =? k) right))
    by (rewrite F; left; reflexivity).
  apply filter_In in Hc. destruct Hc as [Hc Hk]. apply Z.eqb_eq in Hk.
  rewrite <- Hk. apply in_map, Hc.
Qed.

Lemma combined_recommendations_In (row : Combined.t)
    (similar_user_recs : list Similar.t) (all_users : list Rating.t) :
  In row (combined_recommendations similar_user_recs all_users) <->
  exists r, with_score r = row /\
            In r (merge_outer similar_user_recs (all_user_recs all_users)).
Proof.
  unfold combined_recommendations. rewrite sort_desc_In. apply in_map_iff.
Qed.

(** C1, as the code has it. In every row of the combined frame the score is
    the affinity divided by the popularity, except that a popularity of
    exactly 0 is replaced by 1 before dividing. *)
Theorem score_divides_by_popularity (similar_user_recs : list Similar.t)
    (all_users : list Rating.t) :
  Forall
    (fun row =>
       (Combined.count row = 0%Qc ->
        Combined.score row = (Combined.similarity_score row / 1)%Qc) /\
       (Combined.count row <> 0%Qc ->
        Combined.score row = (Combined.similarity_score row / Combined.count row)%Qc))
    (combined_recommendations similar_user_recs all_users).
Proof.
  apply List.Forall_forall. intros row Hrow.
  apply combined_recommendations_In in Hrow. destruct Hrow as (r & <- & _).
  unfold with_score, replace. simpl.
  destruct (Qc_eqb (fillna 0%Qc (Merged.count r)) 0) eqn:E.
  - split; [reflexivity|]. apply Qc_eqb_eq in E. contradiction.
  - split; [|reflexivity]. apply Qc_eqb_neq in E. contradiction.
Qed.

Lemma score_divides_by_popularity_witness :
  Forall
    (fun row =>
       (Combined.count row = 0%Qc ->
        Combined.score row = (Combined.similarity_score row / 1)%Qc) /\
       (Combined.count row <> 0%Qc ->
        Combined.score row = (Combined.similarity_score row / Combined.count row)%Qc))
    (combined_recommendations [Similar.mk 5 (Q2Qc (1 # 2))] [rated 1 7 5 1]).
Proof.
  exact (score_divides_by_popularity [Similar.mk 5 (Q2Qc (1 # 2))] [rated 1 7 5 1]).
Defined.

(** C1, as stated, fails: for target movie 10 of [shared_ratings], movie 20
    has affinity 1/2 and popularity 1/2; its score is 1, not
    (1/2) / max(1/2, 1) = 1/2. *)
Lemma score_not_floored_at_one :
  exists sims events row,
    get_similar_recs shared_ds 10 = Return (Some sims) /\
    get_all_user_recs shared_ds 10 = Return (Some events) /\
    In row (combined_recommendations sims events) /\
    Combined.movieId row = 20 /\
    Combined.score row <>
      (Combined.similarity_score row / Qc_max (Combined.count row) 1)%Qc.
Proof.
  eexists. eexists. eexists.
  split; [vm_compute; reflexivity|].
  split; [vm_compute; reflexivity|].
  split; [right; left; reflexivity|].
  split; [reflexivity|].
  apply Qc_eqb_neq. vm_compute. reflexivity.
Qed.

(** C4. A movie of the affinity frame that has no row in the popularity
    statistic appears in the combined frame with popularity 0 and with a
    score equal to its affinity; every combined row of that movie has
    popularity 0 and score equal to its affinity. *)
Theorem zero_popularity_keeps_affinity (similar_user_recs : list Similar.t)
    (all_users : list Rating.t) (s : Similar.t) :
  In s similar_user_recs ->
  ~ In (Similar.movieId s) (List.map Rating.movieId all_users) ->
  In (Combined.mk (Similar.movieId s) (Similar.similarity_score s) 0%Qc
        (Similar.similarity_score s))
     (combined_recommendations similar_user_recs all_users) /\
  (forall row,
      In row (combined_recommendations similar_user_recs all_users) ->
      Combined.movieId row = Similar.movieId s ->
      Combined.count row = 0%Qc /\
      Combined.score row = Combined.similarity_score row).
Proof.
  intros Hs Hno.
  assert (Hr : right_cells (Similar.movieId s) (all_user_recs all_users) = [None]).
  { apply right_cells_absent. rewrite all_user_recs_In. exact Hno. }
  split.
  - apply combined_recommendations_In.
    exists (Merged.mk (Similar.movieId s) (Some (Similar.similarity_score s)) None).
    split.
    + unfold with_score, replace. simpl. f_equal. apply Qc_div_1.
    + apply merge_outer_In. simpl. split; [|split].
      * apply merge_keys_In. left. apply in_map, Hs.
      * unfold left_cells. apply or_nan_In, in_map_iff. exists s.
        split; [reflexivity|]. apply filter_In. split; [exact Hs | apply Z.eqb_refl].
      * rewrite Hr. left. reflexivity.
  - intros row Hrow Hid.
    apply combined_recommendations_In in Hrow. destruct Hrow as (r & <- & Hin).
    apply merge_outer_In in Hin. destruct Hin as (_ & _ & Hc).
    simpl in Hid. rewrite Hid, Hr in Hc. destruct Hc as [Hc|[]].
    unfold with_score, replace. simpl. rewrite <- Hc. simpl.
    split; [reflexivity | apply Qc_div_1].
Qed.

Lemma zero_popularity_keeps_affinity_witness :
  In (Combined.mk 5 (Q2Qc (1 # 2)) 0%Qc (Q2Qc (1 # 2)))
     (combined_recommendations [Similar.mk 5 (Q2Qc (1 # 2))] [rated 1 7 5 1]) /\
  (forall row,
      In row (combined_recommendations [Similar.mk 5 (Q2Qc (1 # 2))] [rated 1 7 5 1]) ->
      Combined.movieId row = 5 ->
      Combined.count row = 0%Qc /\
      Combined.score row = Combined.similarity_score row).
Proof.
  apply (zero_popularity_keeps_affinity
           [Similar.mk 5 (Q2Qc (1 # 2))] [rated 1 7 5 1] (Similar.mk 5 (Q2Qc (1 # 2)))).
  - left. reflexivity.
  - simpl. intros [H|[]]. discriminate H.
Defined.

(** ** The two frames of one snapshot *)

(** The divisor of [all_user_recs] is not zero on a frame with rows. *)
Lemma unique_users_nonzero (all_users : list Rating.t) :
  all_users <> [] ->
  length (distinct (List.map Rating.userId all_users)) <> 0%nat.
Proof.
  destruct all_users as [|r l]; [congruence|]. simpl. discriminate.
Qed.

Lemma filter_flat_map_length {A : Type} (p q : A -> bool) (f : A -> list A)
    (l : list A) :
  (forall x, In x l -> q x = true -> (1 <= length (List.filter p (f x)))%nat) ->
  (length (List.filter q l) <= length (List.filter p (flat_map f l)))%nat.
Proof.
  induction l as [|x l IH]; simpl; intros H; [lia|].
  rewrite List.filter_app, List.length_app.
  assert (IH' := IH (fun y Hy => H y (or_intror Hy))).
  destruct (q x) eqn:Q; simpl; [|lia].
  pose proof (H x (or_introl eq_refl) Q). lia.
Qed.

(** The join of [get_all_user_recs] counts at least the events that the
    [IN] of [get_similar_recs] counts. *)
Lemma join_count_ge (ratings : list Rating.t) (movie_id k : Z) :
  (length (events_of k (cohort_events ratings movie_id))
   <= length (events_of k
                (List.filter highly_rated
                   (join_users ratings (cohort_users ratings movie_id)))))%nat.
Proof.
  unfold events_of, cohort_events, join_users. rewrite !filter_filter_and.
  apply filter_flat_map_length. intros r _ Hq.
  apply andb_true_iff in Hq. destruct Hq as [Hq Hk].
  apply andb_true_iff in Hq. destruct Hq as [Hh Hin].
  apply sql_in_In in Hin.
  destruct (List.filter (fun u => Rating.userId r =? u)
              (cohort_users ratings movie_id)) as [|u t] eqn:F.
  - exfalso.
    assert (Hu : In (Rating.userId r)
                   (List.filter (fun u => Rating.userId r =? u)
                      (cohort_users ratings movie_id))).
    { apply filter_In. split; [exact Hin | apply Z.eqb_refl]. }
    rewrite F in Hu. destruct Hu.
  - simpl. rewrite Hh, Hk. simpl. lia.
Qed.

Lemma join_movies_In (r : Rating.t) (ratings : list Rating.t) (similar_movies : list Z) :
  In r ratings -> In (Rating.movieId r) similar_movies ->
  In r (join_movies ratings similar_movies).
Proof.
  intros Hr Hk. unfold join_movies. apply in_flat_map. exists r.
  split; [exact Hr|].
  destruct (List.filter (fun k => Rating.movieId r =? k) similar_movies)
    as [|k t] eqn:F; [|left; reflexivity].
  assert (Hin : In (Rating.movieId r)
                  (List.filter (fun k => Rating.movieId r =? k) similar_movies)).
  { apply filter_In. split; [exact Hk | apply Z.eqb_refl]. }
  rewrite F in Hin. destruct Hin.
Qed.

Lemma Qc_ratio_mono (a b t : nat) :
  (a <= b)%nat -> (Qc_of_nat a / Qc_of_nat t <= Qc_of_nat b / Qc_of_nat t)%Qc.
Proof.
  intros H. destruct t as [|t].
  - rewrite Qc_of_nat_0. unfold Qcdiv.
    replace (/ 0)%Qc with 0%Qc by (apply Qc_is_canon; reflexivity).
    rewrite !Qcmult_0_r. apply Qcle_refl.
  - pose proof (Qc_of_nat_pos (S t) ltac:(lia)) as Hpos.
    assert (Hne : Qc_of_nat (S t) <> 0%Qc).
    { intros E. rewrite E in Hpos. exact (Qclt_not_eq _ _ Hpos eq_refl). }
    apply (Qcmult_lt_0_le_reg_r _ _ (Qc_of_nat (S t)) Hpos).
    rewrite !(Qc_div_mul _ _ Hne). apply Qc_of_nat_le, H.
Qed.

(** On one snapshot, every movie of the affinity frame has an event in the
    frame of [get_all_user_recs]: the popularity 0 of the outer merge does not
    arise when both frames are computed from the same ratings. *)
Lemma affinity_movie_has_events (ratings : list Rating.t) (movie_id : Z)
    (df : list Similar.t) (events : list Rating.t) (s : Similar.t) :
  similar_recs_query ratings movie_id = Some df ->
  all_user_recs_query ratings movie_id = Some events ->
  In s df ->
  In (Similar.movieId s) (List.map Rating.movieId events).
Proof.
  rewrite similar_recs_query_eq, all_user_recs_query_eq.
  intros Hdf Hev Hs. injection Hdf as <-. injection Hev as <-.
  apply sort_desc_In, filter_In in Hs. destruct Hs as [Hs Hnoise].
  apply in_map_iff in Hs. destruct Hs as ([k n] & <- & Hg).
  apply group_count_In in Hg. destruct Hg as [Hk ->].
  unfold above_noise, ratio_row in Hnoise. simpl in Hnoise. simpl.
  apply Qc_ltb_lt in Hnoise.
  apply in_map_iff in Hk. destruct Hk as (r & Hrk & Hr).
  assert (Hpos : (0 < length (events_of k (cohort_events ratings movie_id)))%nat).
  { assert (Hin : In r (events_of k (cohort_events ratings movie_id))).
    { apply filter_In. split; [exact Hr | apply Z.eqb_eq, Hrk]. }
    destruct (events_of k (cohort_events ratings movie_id)); [destruct Hin|simpl; lia]. }
  pose proof (join_count_ge ratings movie_id k) as Hge.
  apply filter_In in Hr. destruct Hr as [Hr Hp].
  apply andb_true_iff in Hp. destruct Hp as [Hh _].
  apply in_map_iff. exists r. split; [exact Hrk|].
  apply filter_In. split; [|exact Hh].
  apply join_movies_In; [exact Hr|]. rewrite Hrk.
  set (J := List.filter highly_rated
              (join_users ratings (cohort_users ratings movie_id))) in *.
  apply in_map_iff.
  exists (ratio_row (length (cohort_users ratings movie_id)) (k, length (events_of k J))).
  split; [reflexivity|]. apply filter_In. split.
  - apply in_map, filter_In. split.
    + apply group_count_In. split; [|reflexivity].
      destruct (events_of k J) as [|r' t] eqn:F; [simpl in Hge; lia|].
      assert (Hr' : In r' (events_of k J)) by (rewrite F; left; reflexivity).
      apply filter_In in Hr'. destruct Hr' as [Hr' Hk'].
      apply Z.eqb_eq in Hk'. rewrite <- Hk'. apply in_map, Hr'.
    + simpl. apply Nat.ltb_lt. lia.
  - unfold above_noise, ratio_row. simpl. apply Qc_ltb_lt.
    eapply Qclt_le_trans; [exact Hnoise|].
    unfold cohort_users. rewrite List.length_map. apply Qc_ratio_mono, Hge.
Qed.

(** ** The memo tables do not change what is computed *)

Lemma coherent_empty (ds : DataSource) : coherent ds empty_cache.
Proof.
  unfold coherent, empty_cache. simpl. repeat split.
  - discriminate.
  - intros m v H. rewrite lookup_empty in H. discriminate.
  - intros m v H. rewrite lookup_empty in H. discriminate.
Qed.

Lemma load_movies_coherent (ds : DataSource) (c : Cache) :
  coherent ds c ->
  fst (load_movies ds c) = get_movies ds /\ coherent ds (snd (load_movies ds c)).
Proof.
  intros (Hm & Hs & Ha). unfold load_movies.
  destruct (movies_memo c) as [v|] eqn:E.
  - simpl. split; [symmetry; apply Hm; reflexivity|]. repeat split; auto.
    intros v' Hv. apply Hm. congruence.
  - destruct (get_movies ds) as [v|e] eqn:G; simpl.
    + split; [reflexivity|]. repeat split; simpl; auto. intros v' Hv. congruence.
    + split; [reflexivity|]. repeat split; auto. intros v' Hv. congruence.
Qed.

Lemma get_cached_similar_recs_coherent (ds : DataSource) (m : Z) (c : Cache) :
  coherent ds c ->
  fst (get_cached_similar_recs ds m c) = get_similar_recs ds m /\
  coherent ds (snd (get_cached_similar_recs ds m c)).
Proof.
  intros (Hm & Hs & Ha). unfold get_cached_similar_recs.
  destruct (similar_memo c !! m) as [v|] eqn:E.
  - simpl. split; [symmetry; apply Hs, E|]. repeat split; auto.
  - destruct (get_similar_recs ds m) as [v|e] eqn:G; simpl.
    + split; [reflexivity|]. repeat split; simpl; auto.
      intros m' v' Hv. destruct (decide (m = m')) as [<-|Hne].
      * rewrite lookup_insert_eq in Hv. congruence.
      * rewrite lookup_insert_ne in Hv by exact Hne. apply Hs, Hv.
    + split; [reflexivity|]. repeat split; auto.
Qed.

Lemma get_cached_all_user_recs_coherent (ds : DataSource) (m : Z) (c : Cache) :
  coherent ds c ->
  fst (get_cached_all_user_recs ds m c) = get_all_user_recs ds m /\
  coherent ds (snd (get_cached_all_user_recs ds m c)).
Proof.
  intros (Hm & Hs & Ha). unfold get_cached_all_user_recs.
  destruct (all_users_memo c !! m) as [v|] eqn:E.
  - simpl. split; [symmetry; apply Ha, E|]. repeat split; auto.
  - destruct (get_all_user_recs ds m) as [v|e] eqn:G; simpl.
    + split; [reflexivity|]. repeat split; simpl; auto.
      intros m' v' Hv. destruct (decide (m = m')) as [<-|Hne].
      * rewrite lookup_insert_eq in Hv. congruence.
      * rewrite lookup_insert_ne in Hv by exact Hne. apply Ha, Hv.
    + split; [reflexivity|]. repeat split; auto.
Qed.

(** On coherent tables [recommendation] replies what the three functions
    deliver on the data source, and leaves coherent tables. *)
Lemma recommendation_reply (ds : DataSource) (movie_id : Z) (c : Cache) :
  coherent ds c ->
  fst (recommendation ds movie_id c)
  = reply_of (get_similar_recs ds movie_id) (get_all_user_recs ds movie_id)
      (get_movies ds) /\
  coherent ds (snd (recommendation ds movie_id c)).
Proof.
  intros Hc. unfold recommendation, recommendation_try, to_python_type, bind.
  destruct (get_cached_similar_recs_coherent ds movie_id c Hc) as [E1 H1].
  destruct (get_cached_similar_recs ds movie_id c) as [o1 c1]. simpl in E1, H1.
  rewrite <- E1. destruct o1 as [similar|e]; [|simpl; auto].
  destruct (get_cached_all_user_recs_coherent ds movie_id c1 H1) as [E2 H2].
  destruct (get_cached_all_user_recs ds movie_id c1) as [o2 c2]. simpl in E2, H2.
  rewrite <- E2. destruct o2 as [events|e]; [|simpl; auto].
  destruct events as [all_users|]; [|simpl; auto].
  simpl. destruct (is_empty all_users); simpl; [auto|].
  destruct similar as [similar_user_recs|]; [|simpl; auto].
  destruct (load_movies_coherent ds c2 H2) as [E3 H3].
  destruct (load_movies ds c2) as [o3 c3]. simpl in E3, H3.
  rewrite <- E3. destruct o3 as [all_movies|e]; [|simpl; auto].
  destruct all_movies as [all_movies|]; simpl; auto.
Qed.

(** ** The reply of [recommendation] *)

Lemma join_movies_nil (ratings : list Rating.t) : join_movies ratings [] = [].
Proof.
  unfold join_movies. induction ratings as [|r l IH]; simpl; [reflexivity|exact IH].
Qed.

Lemma cohort_rows_nil (ratings : list Rating.t) (movie_id : Z) :
  (forall r, In r ratings -> Rating.movieId r = movie_id ->
             ~ (four < Rating.rating r)%Qc) ->
  cohort_rows ratings movie_id = [].
Proof.
  intros H. unfold cohort_rows.
  destruct (List.filter _ ratings) as [|r t] eqn:F; [reflexivity|].
  assert (Hr : In r (List.filter
                       (fun r => (Rating.movieId r =? movie_id) && highly_rated r)
                       ratings)) by (rewrite F; left; reflexivity).
  apply filter_In in Hr. destruct Hr as [Hr Hp].
  apply andb_true_iff in Hp. destruct Hp as [Hm Hh].
  exfalso. apply (H r Hr); [apply Z.eqb_eq, Hm | apply Qc_ltb_lt, Hh].
Qed.

Lemma all_user_recs_query_empty_cohort (ratings : list Rating.t) (movie_id : Z) :
  cohort_rows ratings movie_id = [] ->
  all_user_recs_query ratings movie_id = Some [].
Proof.
  intros H. unfold all_user_recs_query, cohort_users. rewrite H. simpl.
  rewrite join_users_nil. simpl. rewrite join_movies_nil. reflexivity.
Qed.

(** C2. When the target movie has no rating event with rating > 4,
    [recommendation] returns an empty frame. *)
Theorem empty_cohort_no_recommendations (ds : DataSource) (movie_id : Z) (c : Cache) :
  coherent ds c ->
  (forall r, In r (ratings ds) -> Rating.movieId r = movie_id ->
             ~ (four < Rating.rating r)%Qc) ->
  frame (fst (recommendation ds movie_id c)) = [].
Proof.
  intros Hc Hno.
  destruct (recommendation_reply ds movie_id c Hc) as [-> _].
  pose proof (all_user_recs_query_empty_cohort _ _ (cohort_rows_nil _ _ Hno)) as Hq.
  unfold get_all_user_recs, get_similar_recs, get_movies, execute_query.
  rewrite Hq.
  destruct (engine_fails ds); [reflexivity|].
  destruct (query_fails ds (QSimilarRecs movie_id));
    destruct (query_fails ds (QAllUserRecs movie_id)); reflexivity.
Qed.

Lemma empty_cohort_no_recommendations_witness :
  frame (fst (recommendation sample_ds 40 empty_cache)) = [].
Proof.
  apply empty_cohort_no_recommendations; [apply coherent_empty|].
  intros r Hr Hm Hlt. simpl in Hr.
  repeat (destruct Hr as [<-|Hr];
          [vm_compute in Hm; vm_compute in Hlt; discriminate|]).
  destruct Hr.
Defined.

(** C6, as the code has it. Once the engine exists, a query that fails to
    execute makes the Aggregator operation return the absent value [None]:
    no exception, and no frame either. *)
Theorem failed_query_returns_none (ds : DataSource) (movie_id : Z) :
  engine_fails ds = false ->
  (query_fails ds (QSimilarRecs movie_id) = true ->
   get_similar_recs ds movie_id = Return None) /\
  (query_fails ds (QAllUserRecs movie_id) = true ->
   get_all_user_recs ds movie_id = Return None).
Proof.
  intros He. unfold get_similar_recs, get_all_user_recs, execute_query.
  rewrite He. split; intros ->; reflexivity.
Qed.

Lemma failed_query_returns_none_witness :
  get_similar_recs failing_ds 10 = Return None /\
  get_all_user_recs failing_ds 10 = Return None.
Proof.
  destruct (failed_query_returns_none failing_ds 10 eq_refl) as [H1 H2].
  split; [apply H1 | apply H2]; reflexivity.
Defined.

(** C6, as stated, fails: with every query failing, neither operation
    returns an empty frame. *)
Lemma failed_query_not_empty_frame :
  query_fails failing_ds (QSimilarRecs 10) = true /\
  query_fails failing_ds (QAllUserRecs 10) = true /\
  get_similar_recs failing_ds 10 <> Return (Some []) /\
  get_all_user_recs failing_ds 10 <> Return (Some []).
Proof.
  split; [reflexivity|]. split; [reflexivity|]. split; discriminate.
Qed.

(** C7. An exception raised anywhere in the body of [recommendation] is
    turned into the empty frame (and handed to [st.error]); in particular,
    on coherent memo tables, a failing engine or a failing query among the
    three the call uses yields the empty frame. *)
Theorem recommendation_never_raises (ds : DataSource) (movie_id : Z) (c : Cache) :
  (forall e c', recommendation_try ds movie_id c = (Raise e, c') ->
                recommendation ds movie_id c = (mkReply [] (Some e), c')) /\
  (coherent ds c ->
   engine_fails ds = true \/ query_fails ds (QSimilarRecs movie_id) = true \/
   query_fails ds (QAllUserRecs movie_id) = true \/ query_fails ds QMovies = true ->
   frame (fst (recommendation ds movie_id c)) = []).
Proof.
  split.
  - intros e c' H. unfold recommendation. rewrite H. reflexivity.
  - intros Hc Hf.
    destruct (recommendation_reply ds movie_id c Hc) as [-> _].
    unfold get_all_user_recs, get_similar_recs, get_movies, execute_query.
    destruct (engine_fails ds); [reflexivity|].
    destruct (query_fails ds (QSimilarRecs movie_id)) eqn:Q1;
      destruct (query_fails ds (QAllUserRecs movie_id)) eqn:Q2; simpl;
      try reflexivity.
    + destruct (all_user_recs_query (ratings ds) movie_id) as [[|r t]|]; reflexivity.
    + destruct Hf as [Hf|[Hf|[Hf|Hf]]]; try discriminate Hf. rewrite Hf.
      destruct (all_user_recs_query (ratings ds) movie_id) as [[|r t]|];
        try reflexivity.
      simpl. destruct (similar_recs_query (ratings ds) movie_id); reflexivity.
Qed.

Lemma recommendation_never_raises_witness :
  recommendation failing_ds 10 empty_cache
  = (mkReply [] (Some AttributeError),
     mkCache None {[ 10 := None ]} {[ 10 := None ]}) /\
  frame (fst (recommendation failing_ds 10 empty_cache)) = [].
Proof.
  destruct (recommendation_never_raises failing_ds 10 empty_cache) as [H1 H2].
  split.
  - apply H1. reflexivity.
  - apply H2; [apply coherent_empty|]. right. left. reflexivity.
Defined.

(** ** The inner merge with the movie metadata *)

Lemma existsb_filter {A : Type} (p : A -> bool) (l : list A) :
  existsb p l = negb (is_empty (List.filter p l)).
Proof.
  induction l as [|x l IH]; simpl; [reflexivity|].
  destruct (p x); simpl; [reflexivity | exact IH].
Qed.

Lemma merge_inner_In (r : Result.t) (left : list Combined.t) (right : list Movie.t) :
  In r (merge_inner left right) ->
  exists l m, In l left /\ In m right /\
              Movie.movieId m = Combined.movieId l /\
              Result.movieId r = Combined.movieId l /\
              Result.score r = Combined.score l /\
              Result.title r = Movie.title m /\
              Result.genres r = Movie.genres m.
Proof.
  unfold merge_inner. intros H.
  apply in_flat_map in H. destruct H as (l & Hl & H).
  apply in_map_iff in H. destruct H as (m & <- & Hm).
  apply filter_In in Hm. destruct Hm as [Hm Hk]. apply Z.eqb_eq in Hk.
  exists l, m. simpl. auto 10.
Qed.

(** With unique metadata keys, the inner merge keeps exactly the left rows
    that have a metadata row, in their order. *)
Lemma merge_inner_keys (left : list Combined.t) (right : list Movie.t) :
  List.NoDup (List.map Movie.movieId right) ->
  List.map (fun r => (Result.movieId r, Result.score r)) (merge_inner left right)
  = List.map (fun l => (Combined.movieId l, Combined.score l))
      (List.filter
         (fun l => existsb (fun m => Movie.movieId m =? Combined.movieId l) right)
         left).
Proof.
  intros Hn. unfold merge_inner.
  induction left as [|l left IH]; simpl; [reflexivity|].
  rewrite List.map_app, IH, existsb_filter.
  pose proof (filter_key_unique Movie.movieId (Combined.movieId l) right Hn) as Hlen.
  destruct (List.filter (fun m => Movie.movieId m =? Combined.movieId l) right)
    as [|m [|m' t]]; simpl in *; [reflexivity | reflexivity | lia].
Qed.

Lemma or_nan_singleton {A : Type} (l : list A) :
  (length l <= 1)%nat -> exists x, or_nan l = [x].
Proof.
  destruct l as [|a [|b t]]; simpl; intros H.
  - exists None. reflexivity.
  - exists (Some a). reflexivity.
  - lia.
Qed.

Lemma merge_outer_keys (left : list Similar.t) (right : list Counted.t) :
  List.NoDup (List.map Similar.movieId left) ->
  List.NoDup (List.map Counted.movieId right) ->
  List.map Merged.movieId (merge_outer left right) = merge_keys left right.
Proof.
  intros Hl Hr. unfold merge_outer.
  induction (merge_keys left right) as [|k ks IH]; simpl; [reflexivity|].
  rewrite List.map_app, IH. f_equal.
  destruct (or_nan_singleton
              (List.map Similar.similarity_score
                 (List.filter (fun l => Similar.movieId l =? k) left))) as [s Hs].
  { rewrite List.length_map. apply (filter_key_unique Similar.movieId), Hl. }
  destruct (or_nan_singleton
              (List.map Counted.count
                 (List.filter (fun r => Counted.movieId r =? k) right))) as [c Hc].
  { rewrite List.length_map. apply (filter_key_unique Counted.movieId), Hr. }
  unfold left_cells, right_cells. rewrite Hs, Hc. reflexivity.
Qed.

Lemma merge_keys_NoDup (left : list Similar.t) (right : list Counted.t) :
  List.NoDup (merge_keys left right).
Proof.
  unfold merge_keys.
  eapply Permutation_NoDup; [apply sort_asc_perm | apply distinct_NoDup].
Qed.

Lemma all_user_recs_NoDup (all_users : list Rating.t) :
  List.NoDup (List.map Counted.movieId (all_user_recs all_users)).
Proof.
  eapply Permutation_NoDup;
    [apply Permutation_sym, all_user_recs_keys | apply distinct_NoDup].
Qed.

Lemma similar_recs_query_keys (ratings : list Rating.t) (movie_id : Z)
    (df : list Similar.t) :
  similar_recs_query ratings movie_id = Some df ->
  List.NoDup (List.map Similar.movieId df).
Proof.
  rewrite similar_recs_query_eq. intros H. inversion H as [E]. clear H E.
  eapply Permutation_NoDup; [apply Permutation_map, sort_desc_perm|].
  apply NoDup_map_filter. rewrite List.map_map. simpl.
  rewrite <- (List.map_map fst (fun k : Z => k)), List.map_id, group_count_keys.
  apply distinct_NoDup.
Qed.

Lemma combined_recommendations_keys (similar_user_recs : list Similar.t)
    (all_users : list Rating.t) :
  List.NoDup (List.map Similar.movieId similar_user_recs) ->
  List.NoDup (List.map Combined.movieId
                (combined_recommendations similar_user_recs all_users)).
Proof.
  intros Hl. unfold combined_recommendations.
  eapply Permutation_NoDup; [apply Permutation_map, sort_desc_perm|].
  rewrite List.map_map.
  rewrite (List.map_ext _ Merged.movieId) by reflexivity.
  rewrite (merge_outer_keys _ _ Hl (all_user_recs_NoDup all_users)).
  apply merge_keys_NoDup.
Qed.

Lemma get_movies_Some (ds : DataSource) (mv : list Movie.t) :
  get_movies ds = Return (Some mv) -> mv = movies ds.
Proof.
  unfold get_movies, execute_query.
  destruct (engine_fails ds); [discriminate|].
  destruct (query_fails ds QMovies); [discriminate|]. congruence.
Qed.

Lemma get_similar_recs_Some (ds : DataSource) (movie_id : Z) (df : list Similar.t) :
  get_similar_recs ds movie_id = Return (Some df) ->
  similar_recs_query (ratings ds) movie_id = Some df.
Proof.
  unfold get_similar_recs, execute_query.
  destruct (engine_fails ds); [discriminate|].
  destruct (query_fails ds (QSimilarRecs movie_id)); [discriminate|]. congruence.
Qed.

(** A reply is empty or is the inner merge of the first ten combined rows. *)
Lemma reply_of_frame (similar : Outcome (option (list Similar.t)))
    (events : Outcome (option (list Rating.t)))
    (all_movies : Outcome (option (list Movie.t))) :
  frame (reply_of similar events all_movies) = [] \/
  exists s a mv,
    similar = Return (Some s) /\ events = Return (Some a) /\
    all_movies = Return (Some mv) /\
    reply_of similar events all_movies
    = mkReply (merge_inner (head 10 (combined_recommendations s a)) mv) None.
Proof.
  destruct similar as [[s|]|e]; destruct events as [[[|r a]|]|e'];
    destruct all_movies as [[mv|]|e'']; simpl; auto.
  right. exists s, (r :: a), mv. auto.
Qed.

(** C8. Every row of the frame returned by [recommendation] carries the
    title of a metadata row with the same movieId; hence a scored movie
    whose movieId is absent from the metadata table has no row in the result,
    and when the engine and the three queries work nothing is handed to
    [st.error], whatever metadata is missing. *)
Theorem missing_metadata_dropped (ds : DataSource) (movie_id : Z) (c : Cache) :
  coherent ds c ->
  (forall r, In r (frame (fst (recommendation ds movie_id c))) ->
             exists m, In m (movies ds) /\
                       Movie.movieId m = Result.movieId r /\
                       Movie.title m = Result.title r) /\
  (forall mid, ~ In mid (List.map Movie.movieId (movies ds)) ->
               ~ In mid (List.map Result.movieId
                           (frame (fst (recommendation ds movie_id c))))) /\
  (engine_fails ds = false ->
   query_fails ds (QSimilarRecs movie_id) = false ->
   query_fails ds (QAllUserRecs movie_id) = false ->
   query_fails ds QMovies = false ->
   st_error (fst (recommendation ds movie_id c)) = None).
Proof.
  intros Hc.
  destruct (recommendation_reply ds movie_id c Hc) as [-> _].
  assert (Hrows : forall r,
             In r (frame (reply_of (get_similar_recs ds movie_id)
                            (get_all_user_recs ds movie_id) (get_movies ds))) ->
             exists m, In m (movies ds) /\
                       Movie.movieId m = Result.movieId r /\
                       Movie.title m = Result.title r).
  { intros r Hr.
    destruct (reply_of_frame (get_similar_recs ds movie_id)
                (get_all_user_recs ds movie_id) (get_movies ds))
      as [E|(s & a & mv & _ & _ & Hmv & E)]; rewrite E in Hr; [destruct Hr|].
    apply get_movies_Some in Hmv. subst mv. simpl in Hr.
    apply merge_inner_In in Hr.
    destruct Hr as (l & m & _ & Hm & Hk & Hid & _ & Ht & _).
    exists m. split; [exact Hm|]. split; congruence. }
  split; [exact Hrows|]. split.
  - intros mid Hno Hin. apply Hno.
    apply in_map_iff in Hin. destruct Hin as (r & <- & Hr).
    destruct (Hrows r Hr) as (m & Hm & <- & _). apply in_map, Hm.
  - intros He Q1 Q2 Q3.
    rewrite (get_similar_recs_runs _ _ He Q1), (get_all_user_recs_runs _ _ He Q2).
    rewrite similar_recs_query_eq, all_user_recs_query_eq.
    unfold get_movies, execute_query. rewrite He, Q3. simpl.
    destruct (is_empty _); reflexivity.
Qed.

Lemma missing_metadata_dropped_witness :
  In 30 (List.map Similar.movieId
           (default [] (similar_recs_query (ratings sample_ds) 10))) /\
  ~ In 30 (List.map Result.movieId
             (frame (fst (recommendation sample_ds 10 empty_cache)))) /\
  st_error (fst (recommendation sample_ds 10 empty_cache)) = None.
Proof.
  destruct (missing_metadata_dropped sample_ds 10 empty_cache
              (coherent_empty sample_ds)) as (_ & Hdrop & Herr).
  split; [vm_compute; auto|]. split.
  - apply Hdrop. vm_compute. intros [H|[H|[]]]; discriminate H.
  - apply Herr; reflexivity.
Defined.

(** C3. When movieId is unique in the movie metadata table, the frame
    returned by [recommendation] has at most 10 rows, is sorted by descending
    score and has no two rows with the same movieId (for every target movie,
    so in particular for one with a nonempty seed cohort). *)
Theorem recommendation_top_ten (ds : DataSource) (movie_id : Z) (c : Cache) :
  coherent ds c ->
  List.NoDup (List.map Movie.movieId (movies ds)) ->
  (length (frame (fst (recommendation ds movie_id c))) <= 10)%nat /\
  sorted_desc Result.score (frame (fst (recommendation ds movie_id c))) /\
  List.NoDup (List.map Result.movieId (frame (fst (recommendation ds movie_id c)))).
Proof.
  intros Hc Hn.
  destruct (recommendation_reply ds movie_id c Hc) as [-> _].
  destruct (reply_of_frame (get_similar_recs ds movie_id)
              (get_all_user_recs ds movie_id) (get_movies ds))
    as [E|(s & a & mv & Hs & _ & Hmv & E)]; rewrite E.
  { simpl. split; [lia|]. split; constructor. }
  apply get_movies_Some in Hmv. subst mv.
  apply get_similar_recs_Some, similar_recs_query_keys in Hs.
  cbn [frame].
  pose proof (merge_inner_keys (head 10 (combined_recommendations s a)) _ Hn) as Hk.
  set (p := fun l : Combined.t =>
              existsb (fun m => Movie.movieId m =? Combined.movieId l) (movies ds)) in Hk.
  set (top := head 10 (combined_recommendations s a)) in *.
  set (results := merge_inner top (movies ds)) in *.
  split; [|split].
  - rewrite <- (List.length_map (fun r => (Result.movieId r, Result.score r))), Hk.
    rewrite List.length_map.
    eapply Nat.le_trans; [apply filter_length_le|].
    unfold top, head. apply firstn_le_length.
  - apply (sorted_desc_map (fun r => (Result.movieId r, Result.score r)) snd).
    rewrite Hk.
    apply (sorted_desc_map (fun l => (Combined.movieId l, Combined.score l)) snd).
    simpl. apply sorted_desc_filter. unfold top, head.
    apply sorted_desc_firstn. unfold combined_recommendations.
    apply sort_desc_sorted.
  - assert (Hid : List.map Result.movieId results
                  = List.map fst
                      (List.map (fun r => (Result.movieId r, Result.score r)) results))
      by (rewrite List.map_map; reflexivity).
    rewrite Hid, Hk, List.map_map. simpl.
    apply NoDup_map_filter. unfold top, head. apply NoDup_map_firstn.
    apply combined_recommendations_keys, Hs.
Qed.

Lemma recommendation_top_ten_witness :
  List.map Result.movieId (frame (fst (recommendation sample_ds 10 empty_cache)))
  = [10; 20] /\
  (length (frame (fst (recommendation sample_ds 10 empty_cache))) <= 10)%nat /\
  sorted_desc Result.score (frame (fst (recommendation sample_ds 10 empty_cache))) /\
  List.NoDup
    (List.map Result.movieId (frame (fst (recommendation sample_ds 10 empty_cache)))).
Proof.
  split; [reflexivity|].
  apply (recommendation_top_ten sample_ds 10 empty_cache (coherent_empty sample_ds)).
  apply NoDup_ListNoDup, (bool_decide_unpack _). vm_compute. reflexivity.
Defined.


(** * Further properties of the queries *)

Lemma all_user_recs_query_retained (ratings : list Rating.t) (movie_id : Z) :
  all_user_recs_query ratings movie_id
  = Some (List.filter highly_rated
            (join_movies ratings (retained_movies ratings movie_id))).
Proof. apply all_user_recs_query_eq. Qed.

Lemma join_users_In (r : Rating.t) (ratings : list Rating.t) (users : list Z) :
  In r (join_users ratings users) <-> In r ratings /\ In (Rating.userId r) users.
Proof.
  unfold join_users. rewrite in_flat_map. split.
  - intros (r' & Hr' & H). apply in_map_iff in H. destruct H as (u & <- & Hu).
    apply filter_In in Hu. destruct Hu as [Hu E]. apply Z.eqb_eq in E.
    rewrite E. auto.
  - intros [Hr Hu]. exists r. split; [exact Hr|].
    apply in_map_iff. exists (Rating.userId r). split; [reflexivity|].
    apply filter_In. split; [exact Hu | apply Z.eqb_refl].
Qed.

Lemma retained_movies_NoDup (ratings : list Rating.t) (movie_id : Z) :
  List.NoDup (retained_movies ratings movie_id).
Proof.
  unfold retained_movies. apply NoDup_map_filter.
  rewrite List.map_map.
  rewrite (List.map_ext _ fst) by reflexivity.
  apply NoDup_map_filter. rewrite group_count_keys. apply distinct_NoDup.
Qed.

(** A movie is retained when its join count gives a score above [0.1]. *)
Lemma retained_movies_intro (ratings : list Rating.t) (movie_id k : Z) (n : nat) :
  In (k, n) (group_count
               (List.filter highly_rated
                  (join_users ratings (cohort_users ratings movie_id)))) ->
  (one_tenth < Qc_of_nat n / Qc_of_nat (length (cohort_users ratings movie_id)))%Qc ->
  In k (retained_movies ratings movie_id).
Proof.
  intros Hg Hlt. unfold retained_movies. apply in_map_iff.
  exists (ratio_row (length (cohort_users ratings movie_id)) (k, n)).
  split; [reflexivity|]. apply filter_In. split.
  - apply in_map, filter_In. split; [exact Hg|]. simpl.
    apply Nat.ltb_lt. apply group_count_In in Hg. destruct Hg as [Hk ->].
    apply in_map_iff in Hk. destruct Hk as (r & Hrk & Hr).
    assert (Hin : In r (events_of k
                          (List.filter highly_rated
                             (join_users ratings (cohort_users ratings movie_id))))).
    { apply filter_In. split; [exact Hr | apply Z.eqb_eq, Hrk]. }
    destruct (events_of k _); [destruct Hin | simpl; lia].
  - unfold above_noise, ratio_row. simpl. apply Qc_ltb_lt, Hlt.
Qed.

(** Every retained movie has a highly-rated event by a member of the cohort. *)
Lemma retained_movies_elim (ratings : list Rating.t) (movie_id k : Z) :
  In k (retained_movies ratings movie_id) ->
  exists r, In r ratings /\ Rating.movieId r = k /\
            (four < Rating.rating r)%Qc /\
            In (Rating.userId r) (cohort_users ratings movie_id).
Proof.
  unfold retained_movies. intros H.
  apply in_map_iff in H. destruct H as (s & <- & Hs).
  apply filter_In in Hs. destruct Hs as [Hs _].
  apply in_map_iff in Hs. destruct Hs as ([k n] & <- & Hg).
  apply filter_In in Hg. destruct Hg as [Hg _].
  apply group_count_In in Hg. destruct Hg as [Hk _].
  apply in_map_iff in Hk. destruct Hk as (r & Hrk & Hr).
  apply filter_In in Hr. destruct Hr as [Hr Hh].
  apply join_users_In in Hr. destruct Hr as [Hr Hu].
  exists r. simpl. repeat split; auto. apply Qc_ltb_lt, Hh.
Qed.

(** A join on a key column without duplicates selects rows, it does not
    copy them. *)
Lemma join_movies_filter (ratings : list Rating.t) (similar_movies : list Z) :
  List.NoDup similar_movies ->
  join_movies ratings similar_movies
  = List.filter (fun r => sql_in (Rating.movieId r) similar_movies) ratings.
Proof.
  intros Hn. unfold join_movies, sql_in.
  induction ratings as [|r l IH]; simpl; [reflexivity|].
  rewrite IH, existsb_filter.
  assert (Hlen : (length (List.filter (fun k => (Rating.movieId r =? k)%Z)
                            similar_movies) <= 1)%nat).
  { rewrite (filter_ext _ (fun k => (k =? Rating.movieId r)%Z))
      by (intros k; apply Z.eqb_sym).
    apply (filter_key_unique (fun k : Z => k)). rewrite List.map_id. exact Hn. }
  destruct (List.filter (fun k => Rating.movieId r =? k) similar_movies)
    as [|k [|k' t]]; simpl in *; [reflexivity | reflexivity | lia].
Qed.

(** The target movie is retained whenever the cohort has a row. *)
Lemma target_retained (ratings : list Rating.t) (movie_id : Z) :
  cohort_rows ratings movie_id <> [] ->
  In movie_id (retained_movies ratings movie_id).
Proof.
  intros Hne.
  set (J := List.filter highly_rated
              (join_users ratings (cohort_users ratings movie_id))).
  pose proof (join_count_ge ratings movie_id movie_id) as Hge.
  rewrite cohort_events_target in Hge. fold J in Hge.
  assert (Hpos : (0 < length (cohort_rows ratings movie_id))%nat).
  { destruct (cohort_rows ratings movie_id); [congruence | simpl; lia]. }
  apply (retained_movies_intro _ _ _ (length (events_of movie_id J))).
  - apply group_count_In. split; [|reflexivity].
    destruct (events_of movie_id J) as [|r t] eqn:F; [simpl in Hge; lia|].
    assert (Hr : In r (events_of movie_id J)) by (rewrite F; left; reflexivity).
    apply filter_In in Hr. destruct Hr as [Hr Hk]. apply Z.eqb_eq in Hk.
    apply in_map_iff. exists r. split; [exact Hk | exact Hr].
  - unfold cohort_users. rewrite List.length_map.
    eapply Qclt_le_trans; [|apply Qc_ratio_mono, Hge].
    rewrite Qc_div_self; [reflexivity|].
    intros E. apply Qc_of_nat_eq_0 in E. lia.
Qed.

(** X1. Neither statement can raise PostgreSQL's division by zero: both
    evaluate to a frame for every ratings table and every target movie, also
    when the divisor, the size of the seed cohort, is 0. *)
Theorem queries_never_divide_by_zero (ratings : list Rating.t) (movie_id : Z) :
  (exists df, similar_recs_query ratings movie_id = Some df) /\
  (exists events, all_user_recs_query ratings movie_id = Some events).
Proof.
  split; eexists; [apply similar_recs_query_eq | apply all_user_recs_query_eq].
Qed.

(** X2. The frame of [get_similar_recs] has one row per movie, is in
    descending order of [similarity_score], and every score in it exceeds
    0.1. *)
Theorem similar_recs_frame_shape (ratings : list Rating.t) (movie_id : Z) :
  exists df,
    similar_recs_query ratings movie_id = Some df /\
    List.NoDup (List.map Similar.movieId df) /\
    sorted_desc Similar.similarity_score df /\
    Forall (fun s => (one_tenth < Similar.similarity_score s)%Qc) df.
Proof.
  destruct (similar_recs_query ratings movie_id) as [df|] eqn:E.
  2: { rewrite similar_recs_query_eq in E. discriminate. }
  exists df. split; [reflexivity|]. split; [|split].
  - apply (similar_recs_query_keys _ _ _ E).
  - rewrite similar_recs_query_eq in E. injection E as <-. apply sort_desc_sorted.
  - rewrite similar_recs_query_eq in E. injection E as <-.
    apply List.Forall_forall. intros s Hs.
    apply sort_desc_In, filter_In in Hs. apply Qc_ltb_lt. tauto.
Qed.

(** X3. The frame of [get_all_user_recs] is a sub-list of the ratings table
    (no event is returned twice): the events with rating > 4 of the retained
    movies, whoever the user is; and every retained movie has an event with
    rating > 4 by a member of the seed cohort. *)
Theorem all_user_recs_frame_shape (ratings : list Rating.t) (movie_id : Z) :
  all_user_recs_query ratings movie_id
  = Some (List.filter
            (fun r => sql_in (Rating.movieId r) (retained_movies ratings movie_id)
                      && highly_rated r)
            ratings) /\
  (forall k, In k (retained_movies ratings movie_id) ->
             exists r, In r ratings /\ Rating.movieId r = k /\
                       (four < Rating.rating r)%Qc /\
                       In (Rating.userId r) (cohort_users ratings movie_id)).
Proof.
  split; [|apply retained_movies_elim].
  rewrite all_user_recs_query_retained.
  rewrite (join_movies_filter _ _ (retained_movies_NoDup ratings movie_id)).
  rewrite filter_filter_and. reflexivity.
Qed.

Lemma cohort_rows_returned (ratings : list Rating.t) (movie_id : Z)
    (events : list Rating.t) (r : Rating.t) :
  all_user_recs_query ratings movie_id = Some events ->
  In r (cohort_rows ratings movie_id) -> In r events.
Proof.
  intros E Hr. rewrite all_user_recs_query_retained in E. injection E as <-.
  assert (Hne : cohort_rows ratings movie_id <> [])
    by (intros Z0; rewrite Z0 in Hr; destruct Hr).
  apply filter_In in Hr. destruct Hr as [Hr Hp].
  apply andb_true_iff in Hp. destruct Hp as [Hk Hh]. apply Z.eqb_eq in Hk.
  apply filter_In. split; [|exact Hh].
  apply join_movies_In; [exact Hr|]. rewrite Hk. apply target_retained, Hne.
Qed.

Lemma events_nonempty (ratings : list Rating.t) (movie_id : Z) :
  cohort_rows ratings movie_id <> [] ->
  exists r t, all_user_recs_query ratings movie_id = Some (r :: t).
Proof.
  intros Hne.
  destruct (all_user_recs_query ratings movie_id) as [[|r t]|] eqn:E.
  - exfalso. destruct (cohort_rows ratings movie_id) as [|r0 t0] eqn:C; [congruence|].
    apply (cohort_rows_returned ratings movie_id [] r0 E). rewrite C. left. reflexivity.
  - eauto.
  - rewrite all_user_recs_query_eq in E. discriminate.
Qed.

(** X4. The frame of [get_all_user_recs] is empty exactly when the target
    movie has no event with rating > 4; otherwise it contains every such
    event of the target movie. *)
Theorem all_user_recs_empty_iff (ratings : list Rating.t) (movie_id : Z) :
  (all_user_recs_query ratings movie_id = Some [] <->
   cohort_rows ratings movie_id = []) /\
  (forall events r,
      all_user_recs_query ratings movie_id = Some events ->
      In r (cohort_rows ratings movie_id) -> In r events).
Proof.
  split; [|apply cohort_rows_returned]. split.
  - intros E. destruct (cohort_rows ratings movie_id) as [|r t] eqn:C; [reflexivity|].
    exfalso. apply (cohort_rows_returned ratings movie_id [] r E).
    rewrite C. left. reflexivity.
  - apply all_user_recs_query_empty_cohort.
Qed.

Lemma all_user_recs_frame_shape_witness :
  exists r, In r sample /\ Rating.movieId r = 10 /\
            (four < Rating.rating r)%Qc /\
            In (Rating.userId r) (cohort_users sample 10).
Proof.
  apply (proj2 (all_user_recs_frame_shape sample 10)).
  vm_compute. auto.
Defined.

Lemma all_user_recs_empty_iff_witness :
  exists events,
    all_user_recs_query sample 10 = Some events /\ In (rated 1 10 5 1) events.
Proof.
  eexists. split; [apply all_user_recs_query_eq|].
  apply (proj2 (all_user_recs_empty_iff sample 10) _ _ (all_user_recs_query_eq _ _)).
  vm_compute. auto.
Defined.

(** * Further properties of the combined frame *)

Lemma Qc_ratio_pos (a b : nat) :
  (0 < a)%nat -> (0 < b)%nat -> (0 < Qc_of_nat a / Qc_of_nat b)%Qc.
Proof.
  intros Ha Hb. apply Qcnot_le_lt. intros Hle.
  pose proof (Qc_of_nat_pos b Hb) as Hpos.
  assert (Hne : Qc_of_nat b <> 0%Qc).
  { intros E. rewrite E in Hpos. exact (Qclt_not_eq _ _ Hpos eq_refl). }
  apply (Qcmult_le_compat_r _ _ (Qc_of_nat b)) in Hle; [|apply Qclt_le_weak, Hpos].
  rewrite (Qc_div_mul _ _ Hne), Qcmult_0_l in Hle.
  exact (Qcle_not_lt _ _ Hle (Qc_of_nat_pos a Ha)).
Qed.

Lemma or_nan_nonempty {A : Type} (l : list A) : exists x, In x (or_nan l).
Proof.
  destruct l as [|a t]; simpl; eauto.
Qed.

Lemma filter_map_swap {A B : Type} (f : A -> B) (p : B -> bool) (l : list A) :
  List.filter p (List.map f l) = List.map f (List.filter (fun a => p (f a)) l).
Proof.
  induction l as [|x l IH]; simpl; [reflexivity|].
  destruct (p (f x)); simpl; rewrite IH; reflexivity.
Qed.

(** The rows of [all_user_recs]: a movie of the events with its number of
    events over the number of distinct users. *)
Lemma all_user_recs_row (all_users : list Rating.t) (c : Counted.t) :
  In c (all_user_recs all_users) ->
  In (Counted.movieId c) (List.map Rating.movieId all_users) /\
  Counted.count c
  = (Qc_of_nat (length (events_of (Counted.movieId c) all_users))
     / Qc_of_nat (length (distinct (List.map Rating.userId all_users))))%Qc.
Proof.
  unfold all_user_recs, value_counts. intros H.
  apply in_map_iff in H. destruct H as ([k n] & <- & Hg).
  apply sort_desc_In, in_map_iff in Hg. destruct Hg as (k' & E & Hk).
  injection E as -> <-. apply (proj1 (distinct_In _ _)) in Hk. simpl.
  split; [exact Hk|]. do 2 f_equal.
  rewrite filter_map_swap, List.length_map. unfold events_of.
  f_equal. apply filter_ext. intros r. apply Z.eqb_sym.
Qed.

Lemma events_of_nonempty (k : Z) (rows : list Rating.t) :
  In k (List.map Rating.movieId rows) -> (0 < length (events_of k rows))%nat.
Proof.
  intros H. apply in_map_iff in H. destruct H as (r & Hk & Hr).
  assert (Hin : In r (events_of k rows)).
  { apply filter_In. split; [exact Hr | apply Z.eqb_eq, Hk]. }
  destruct (events_of k rows); [destruct Hin | simpl; lia].
Qed.

Lemma all_user_recs_count_pos (all_users : list Rating.t) (c : Counted.t) :
  In c (all_user_recs all_users) -> (0 < Counted.count c)%Qc.
Proof.
  intros H. destruct (all_user_recs_row _ _ H) as [Hk ->].
  apply Qc_ratio_pos; [apply events_of_nonempty, Hk|].
  destruct all_users as [|r l]; [destruct Hk | simpl; lia].
Qed.

Lemma right_cells_present (k : Z) (right : list Counted.t) (x : option Qc) :
  In k (List.map Counted.movieId right) ->
  In x (right_cells k right) ->
  exists c, In c right /\ Counted.movieId c = k /\ x = Some (Counted.count c).
Proof.
  intros Hk Hx. unfold right_cells in Hx.
  destruct (List.filter (fun r => Counted.movieId r =? k) right) as [|c0 t] eqn:F.
  - exfalso. apply in_map_iff in Hk. destruct Hk as (c & Hc & Hin).
    assert (H0 : In c (List.filter (fun r => Counted.movieId r =? k) right)).
    { apply filter_In. split; [exact Hin | apply Z.eqb_eq, Hc]. }
    rewrite F in H0. destruct H0.
  - unfold or_nan in Hx. rewrite <- F in Hx. rewrite F in Hx at 1.
    apply in_map_iff in Hx. destruct Hx as (q & <- & Hq).
    apply in_map_iff in Hq. destruct Hq as (c & <- & Hc).
    apply filter_In in Hc. destruct Hc as [Hc E]. apply Z.eqb_eq in E.
    exists c. auto.
Qed.

Lemma left_cells_absent (k : Z) (left : list Similar.t) :
  ~ In k (List.map Similar.movieId left) -> left_cells k left = [None].
Proof.
  intros H. unfold left_cells.
  destruct (List.filter (fun l => Similar.movieId l =? k) left) as [|c t] eqn:F;
    [reflexivity|].
  exfalso. apply H.
  assert (Hc : In c (List.filter (fun l => Similar.movieId l =? k) left))
    by (rewrite F; left; reflexivity).
  apply filter_In in Hc. destruct Hc as [Hc Hk]. apply Z.eqb_eq in Hk.
  rewrite <- Hk. apply in_map, Hc.
Qed.

(** X5. When both frames come from the same ratings table, every row of
    the combined frame has a positive popularity: the replacement of 0 by 1
    never fires and the score is the plain quotient affinity / popularity. *)
Theorem pipeline_popularity_positive (ratings : list Rating.t) (movie_id : Z)
    (df : list Similar.t) (events : list Rating.t) :
  similar_recs_query ratings movie_id = Some df ->
  all_user_recs_query ratings movie_id = Some events ->
  Forall
    (fun row =>
       (0 < Combined.count row)%Qc /\
       Combined.score row = (Combined.similarity_score row / Combined.count row)%Qc)
    (combined_recommendations df events).
Proof.
  intros Hdf Hev. apply List.Forall_forall. intros row Hrow.
  apply combined_recommendations_In in Hrow. destruct Hrow as (r & <- & Hr).
  apply merge_outer_In in Hr. destruct Hr as (Hk & _ & Hc).
  assert (Hright : In (Merged.movieId r)
                     (List.map Counted.movieId (all_user_recs events))).
  { apply merge_keys_In in Hk. destruct Hk as [Hk|Hk]; [|exact Hk].
    apply all_user_recs_In.
    apply in_map_iff in Hk. destruct Hk as (s & <- & Hs).
    apply (affinity_movie_has_events _ _ _ _ _ Hdf Hev Hs). }
  destruct (right_cells_present _ _ _ Hright Hc) as (c & Hin & _ & E).
  pose proof (all_user_recs_count_pos _ _ Hin) as Hpos.
  unfold with_score, replace. simpl. rewrite E. simpl.
  split; [exact Hpos|].
  destruct (Qc_eqb (Counted.count c) 0) eqn:Z0; [|reflexivity].
  apply Qc_eqb_eq in Z0. rewrite Z0 in Hpos.
  exfalso. exact (Qclt_not_eq _ _ Hpos eq_refl).
Qed.

Lemma pipeline_popularity_positive_witness :
  exists df events,
    similar_recs_query sample 10 = Some df /\
    all_user_recs_query sample 10 = Some events /\
    Forall
      (fun row =>
         (0 < Combined.count row)%Qc /\
         Combined.score row = (Combined.similarity_score row / Combined.count row)%Qc)
      (combined_recommendations df events).
Proof.
  eexists. eexists.
  split; [apply similar_recs_query_eq|]. split; [apply all_user_recs_query_eq|].
  apply (pipeline_popularity_positive sample 10);
    [apply similar_recs_query_eq | apply all_user_recs_query_eq].
Defined.

(** X6. Every popularity value is positive; when no user has two events for
    the same movie in the events frame, no popularity value exceeds 1. *)
Theorem popularity_bounds (all_users : list Rating.t) :
  Forall (fun c => (0 < Counted.count c)%Qc) (all_user_recs all_users) /\
  (List.NoDup (List.map (fun r => (Rating.userId r, Rating.movieId r)) all_users) ->
   Forall (fun c => (Counted.count c <= 1)%Qc) (all_user_recs all_users)).
Proof.
  split.
  - apply List.Forall_forall. intros c Hc. apply (all_user_recs_count_pos _ _ Hc).
  - intros Hu. apply List.Forall_forall. intros c Hc.
    destruct (all_user_recs_row _ _ Hc) as [Hk ->].
    set (k := Counted.movieId c) in *.
    apply Qc_ratio_bounds.
    + assert (Hn : List.NoDup (List.map Rating.userId (events_of k all_users))).
      { apply (NoDup_map_inv (fun u : Z => (u, k))).
        rewrite List.map_map.
        rewrite (map_ext_in _ (fun r => (Rating.userId r, Rating.movieId r))).
        - apply NoDup_map_filter, Hu.
        - intros r Hr. apply filter_In in Hr. destruct Hr as [_ Hr].
          apply Z.eqb_eq in Hr. rewrite Hr. reflexivity. }
      assert (Hi : incl (List.map Rating.userId (events_of k all_users))
                     (distinct (List.map Rating.userId all_users))).
      { intros u Hin. apply distinct_In.
        apply in_map_iff in Hin. destruct Hin as (r & <- & Hr).
        apply filter_In in Hr. apply in_map. tauto. }
      pose proof (NoDup_incl_length Hn Hi) as Hlen.
      rewrite List.length_map in Hlen. exact Hlen.
    + destruct all_users as [|r l]; [destruct Hk | simpl; lia].
Qed.

Lemma popularity_bounds_witness :
  Forall (fun c => (Counted.count c <= 1)%Qc) (all_user_recs shared_ratings).
Proof.
  apply (proj2 (popularity_bounds shared_ratings)).
  apply NoDup_ListNoDup, (bool_decide_unpack _). vm_compute. reflexivity.
Defined.

Lemma combined_row_exists (similar_user_recs : list Similar.t)
    (all_users : list Rating.t) (k : Z) :
  In k (merge_keys similar_user_recs (all_user_recs all_users)) ->
  exists row, In row (combined_recommendations similar_user_recs all_users) /\
              Combined.movieId row = k.
Proof.
  intros Hk.
  destruct (or_nan_nonempty
              (List.map Similar.similarity_score
                 (List.filter (fun l => Similar.movieId l =? k) similar_user_recs)))
    as [x Hx].
  destruct (or_nan_nonempty
              (List.map Counted.count
                 (List.filter (fun r => Counted.movieId r =? k)
                    (all_user_recs all_users))))
    as [y Hy].
  exists (with_score (Merged.mk k x y)). split; [|reflexivity].
  apply combined_recommendations_In. exists (Merged.mk k x y).
  split; [reflexivity|]. apply merge_outer_In. simpl. auto.
Qed.

(** X7. The combined frame has a row for a movie exactly when the movie has
    a row in the affinity frame or an event in the events frame. *)
Theorem combined_keys_union (similar_user_recs : list Similar.t)
    (all_users : list Rating.t) (k : Z) :
  In k (List.map Combined.movieId
          (combined_recommendations similar_user_recs all_users)) <->
  In k (List.map Similar.movieId similar_user_recs) \/
  In k (List.map Rating.movieId all_users).
Proof.
  rewrite <- all_user_recs_In, <- merge_keys_In. split.
  - intros H. apply in_map_iff in H. destruct H as (row & <- & Hrow).
    apply combined_recommendations_In in Hrow. destruct Hrow as (r & <- & Hr).
    apply merge_outer_In in Hr. simpl. tauto.
  - intros Hk. destruct (combined_row_exists _ _ _ Hk) as (row & Hrow & <-).
    apply in_map, Hrow.
Qed.

(** X8. A movie with events but without a row in the affinity frame gets
    affinity 0 and score 0 in every combined row of that movie, and it has
    such a row. *)
Theorem zero_affinity_scores_zero (similar_user_recs : list Similar.t)
    (all_users : list Rating.t) (k : Z) :
  In k (List.map Rating.movieId all_users) ->
  ~ In k (List.map Similar.movieId similar_user_recs) ->
  (exists row, In row (combined_recommendations similar_user_recs all_users) /\
               Combined.movieId row = k) /\
  (forall row,
      In row (combined_recommendations similar_user_recs all_users) ->
      Combined.movieId row = k ->
      Combined.similarity_score row = 0%Qc /\ Combined.score row = 0%Qc /\
      (0 < Combined.count row)%Qc).
Proof.
  intros Hev Hno. split.
  - apply combined_row_exists, merge_keys_In. right.
    apply all_user_recs_In, Hev.
  - intros row Hrow Hid.
    apply combined_recommendations_In in Hrow. destruct Hrow as (r & <- & Hr).
    simpl in Hid. apply merge_outer_In in Hr. destruct Hr as (_ & Hs & Hc).
    rewrite Hid in Hs, Hc. rewrite (left_cells_absent _ _ Hno) in Hs.
    destruct Hs as [Hs|[]].
    assert (Hright : In k (List.map Counted.movieId (all_user_recs all_users)))
      by (apply all_user_recs_In, Hev).
    destruct (right_cells_present _ _ _ Hright Hc) as (c & Hin & _ & E).
    unfold with_score. simpl. rewrite <- Hs, E. simpl.
    split; [reflexivity|]. split; [|apply (all_user_recs_count_pos _ _ Hin)].
    unfold Qcdiv. apply Qcmult_0_l.
Qed.

Lemma zero_affinity_scores_zero_witness :
  (exists row, In row (combined_recommendations [] [rated 1 7 5 1]) /\
               Combined.movieId row = 7) /\
  (forall row,
      In row (combined_recommendations [] [rated 1 7 5 1]) ->
      Combined.movieId row = 7 ->
      Combined.similarity_score row = 0%Qc /\ Combined.score row = 0%Qc /\
      (0 < Combined.count row)%Qc).
Proof.
  apply (zero_affinity_scores_zero [] [rated 1 7 5 1] 7).
  - left. reflexivity.
  - intros [].
Defined.

(** * Further properties of the memo tables *)

Lemma get_cached_similar_recs_fst (ds : DataSource) (m : Z) (c : Cache) :
  fst (get_cached_similar_recs ds m c)
  = cached_value (similar_memo c !! m) (get_similar_recs ds m).
Proof.
  unfold get_cached_similar_recs, cached_value.
  destruct (similar_memo c !! m); [reflexivity|].
  destruct (get_similar_recs ds m); reflexivity.
Qed.

Lemma get_cached_similar_recs_tables (ds : DataSource) (m : Z) (c : Cache) :
  movies_memo (snd (get_cached_similar_recs ds m c)) = movies_memo c /\
  all_users_memo (snd (get_cached_similar_recs ds m c)) = all_users_memo c /\
  (forall v, fst (get_cached_similar_recs ds m c) = Return v ->
             similar_memo (snd (get_cached_similar_recs ds m c)) !! m = Some v) /\
  extends c (snd (get_cached_similar_recs ds m c)).
Proof.
  unfold get_cached_similar_recs, extends.
  destruct (similar_memo c !! m) as [v0|] eqn:E.
  - simpl. repeat split; auto. intros v H. congruence.
  - destruct (get_similar_recs ds m) as [v0|e]; simpl.
    + repeat split; auto.
      * intros v H. injection H as <-. apply lookup_insert_eq.
      * intros k v H. rewrite lookup_insert_ne; [exact H|]. congruence.
    + repeat split; auto. discriminate.
Qed.

Lemma get_cached_all_user_recs_fst (ds : DataSource) (m : Z) (c : Cache) :
  fst (get_cached_all_user_recs ds m c)
  = cached_value (all_users_memo c !! m) (get_all_user_recs ds m).
Proof.
  unfold get_cached_all_user_recs, cached_value.
  destruct (all_users_memo c !! m); [reflexivity|].
  destruct (get_all_user_recs ds m); reflexivity.
Qed.

Lemma get_cached_all_user_recs_tables (ds : DataSource) (m : Z) (c : Cache) :
  movies_memo (snd (get_cached_all_user_recs ds m c)) = movies_memo c /\
  similar_memo (snd (get_cached_all_user_recs ds m c)) = similar_memo c /\
  (forall v, fst (get_cached_all_user_recs ds m c) = Return v ->
             all_users_memo (snd (get_cached_all_user_recs ds m c)) !! m = Some v) /\
  extends c (snd (get_cached_all_user_recs ds m c)).
Proof.
  unfold get_cached_all_user_recs, extends.
  destruct (all_users_memo c !! m) as [v0|] eqn:E.
  - simpl. repeat split; auto. intros v H. congruence.
  - destruct (get_all_user_recs ds m) as [v0|e]; simpl.
    + repeat split; auto.
      * intros v H. injection H as <-. apply lookup_insert_eq.
      * intros k v H. rewrite lookup_insert_ne; [exact H|]. congruence.
    + repeat split; auto. discriminate.
Qed.

Lemma load_movies_fst (ds : DataSource) (c : Cache) :
  fst (load_movies ds c) = cached_value (movies_memo c) (get_movies ds).
Proof.
  unfold load_movies, cached_value.
  destruct (movies_memo c); [reflexivity|].
  destruct (get_movies ds); reflexivity.
Qed.

Lemma load_movies_tables (ds : DataSource) (c : Cache) :
  similar_memo (snd (load_movies ds c)) = similar_memo c /\
  all_users_memo (snd (load_movies ds c)) = all_users_memo c /\
  (forall v, fst (load_movies ds c) = Return v ->
             movies_memo (snd (load_movies ds c)) = Some v) /\
  extends c (snd (load_movies ds c)).
Proof.
  unfold load_movies, extends.
  destruct (movies_memo c) as [v0|] eqn:E.
  - simpl. repeat split; auto. all: intros v H; congruence.
  - destruct (get_movies ds) as [v0|e]; simpl.
    + repeat split; auto; try discriminate. intros v H. congruence.
    + repeat split; auto; discriminate.
Qed.

Lemma extends_refl (c : Cache) : extends c c.
Proof. unfold extends. auto. Qed.

Lemma extends_trans (c1 c2 c3 : Cache) :
  extends c1 c2 -> extends c2 c3 -> extends c1 c3.
Proof.
  unfold extends. intros (A1 & B1 & C1) (A2 & B2 & C2). repeat split; auto.
Qed.

Lemma engine_ok_returns (ds : DataSource) (movie_id : Z) :
  engine_fails ds = false ->
  (exists v, get_similar_recs ds movie_id = Return v) /\
  (exists v, get_all_user_recs ds movie_id = Return v) /\
  (exists v, get_movies ds = Return v).
Proof.
  intros He. unfold get_similar_recs, get_all_user_recs, get_movies, execute_query.
  rewrite He. repeat split.
  - destruct (query_fails ds (QSimilarRecs movie_id)); eauto.
  - destruct (query_fails ds (QAllUserRecs movie_id)); eauto.
  - destruct (query_fails ds QMovies); eauto.
Qed.

(** One call of [recommendation], on any tables: the reply is computed from
    what the three decorated functions deliver on the tables of the call;
    with a working engine, what the first two delivered is stored under the
    movie, and so is the metadata when the body got that far. *)
Lemma recommendation_run (ds : DataSource) (movie_id : Z) (c : Cache) :
  fst (recommendation ds movie_id c)
  = reply_of (cached_value (similar_memo c !! movie_id) (get_similar_recs ds movie_id))
      (cached_value (all_users_memo c !! movie_id) (get_all_user_recs ds movie_id))
      (cached_value (movies_memo c) (get_movies ds)) /\
  (engine_fails ds = false ->
   exists v1 v2,
     similar_memo (snd (recommendation ds movie_id c)) !! movie_id = Some v1 /\
     all_users_memo (snd (recommendation ds movie_id c)) !! movie_id = Some v2 /\
     forall other,
       reply_of (Return v1) (Return v2)
         (cached_value (movies_memo (snd (recommendation ds movie_id c))) other)
       = fst (recommendation ds movie_id c)).
Proof.
  unfold recommendation, recommendation_try, bind, to_python_type.
  pose proof (get_cached_similar_recs_fst ds movie_id c) as F1.
  destruct (get_cached_similar_recs_tables ds movie_id c) as (M1 & A1 & S1 & _).
  destruct (get_cached_similar_recs ds movie_id c) as [o1 c1]. simpl in F1, M1, A1, S1.
  rewrite <- F1. destruct o1 as [v1|e1].
  2: { split; [reflexivity|]. intros He.
       destruct (engine_ok_returns ds movie_id He) as [[v Hv] _].
       rewrite Hv in F1. destruct (similar_memo c !! movie_id); discriminate. }
  pose proof (get_cached_all_user_recs_fst ds movie_id c1) as F2.
  destruct (get_cached_all_user_recs_tables ds movie_id c1) as (M2 & S2 & A2 & _).
  destruct (get_cached_all_user_recs ds movie_id c1) as [o2 c2].
  simpl in F2, M2, S2, A2. rewrite A1 in F2. rewrite <- F2.
  destruct o2 as [v2|e2].
  2: { split; [reflexivity|]. intros He.
       destruct (engine_ok_returns ds movie_id He) as (_ & [v Hv] & _).
       rewrite Hv in F2. destruct (all_users_memo c !! movie_id); discriminate. }
  assert (H1 : similar_memo c2 !! movie_id = Some v1)
    by (rewrite S2; apply S1; reflexivity).
  assert (H2 : all_users_memo c2 !! movie_id = Some v2) by (apply A2; reflexivity).
  destruct v2 as [[|r a]|]; simpl.
  - split; [reflexivity|]. intros _. exists v1, (Some []). auto.
  - destruct v1 as [s|]; simpl.
    + pose proof (load_movies_fst ds c2) as F3.
      destruct (load_movies_tables ds c2) as (S3 & A3 & M3 & _).
      destruct (load_movies ds c2) as [o3 c3]. simpl in F3, S3, A3, M3.
      rewrite M2, M1 in F3. rewrite <- F3.
      destruct o3 as [[mv|]|e3]; simpl.
      * split; [reflexivity|]. intros _. exists (Some s), (Some (r :: a)).
        rewrite S3, A3, (M3 _ eq_refl). auto.
      * split; [reflexivity|]. intros _. exists (Some s), (Some (r :: a)).
        rewrite S3, A3, (M3 _ eq_refl). auto.
      * split; [reflexivity|]. intros He.
        destruct (engine_ok_returns ds movie_id He) as (_ & _ & [v Hv]).
        rewrite Hv in F3. destruct (movies_memo c); discriminate.
    + split; [reflexivity|]. intros _. exists None, (Some (r :: a)). auto.
  - split; [reflexivity|]. intros _. exists v1, None. auto.
Qed.

(** X9. A value that a decorated function has returned once is returned
    again from its table whatever the data source has become since: new
    ratings, new metadata, a query that now fails or works again. This holds
    for the [None] of a failed query as well. *)
Theorem memo_hit_ignores_source (ds ds' : DataSource) (movie_id : Z) (c : Cache) :
  (forall v c', get_cached_similar_recs ds movie_id c = (Return v, c') ->
                get_cached_similar_recs ds' movie_id c' = (Return v, c')) /\
  (forall v c', get_cached_all_user_recs ds movie_id c = (Return v, c') ->
                get_cached_all_user_recs ds' movie_id c' = (Return v, c')) /\
  (forall v c', load_movies ds c = (Return v, c') ->
                load_movies ds' c' = (Return v, c')).
Proof.
  split; [|split]; intros v c' H.
  - destruct (get_cached_similar_recs_tables ds movie_id c) as (_ & _ & S & _).
    rewrite H in S. simpl in S.
    unfold get_cached_similar_recs. rewrite (S v eq_refl). reflexivity.
  - destruct (get_cached_all_user_recs_tables ds movie_id c) as (_ & _ & S & _).
    rewrite H in S. simpl in S.
    unfold get_cached_all_user_recs. rewrite (S v eq_refl). reflexivity.
  - destruct (load_movies_tables ds c) as (_ & _ & S & _).
    rewrite H in S. simpl in S.
    unfold load_movies. rewrite (S v eq_refl). reflexivity.
Qed.

Lemma memo_hit_ignores_source_witness :
  get_cached_similar_recs sample_ds 10
    (snd (get_cached_similar_recs failing_ds 10 empty_cache))
  = (Return None, snd (get_cached_similar_recs failing_ds 10 empty_cache)).
Proof.
  apply (proj1 (memo_hit_ignores_source failing_ds sample_ds 10 empty_cache)).
  reflexivity.
Defined.

(** X11. Once a call of [recommendation] has run with a working engine, a
    later call for the same movie on the tables it left replies the same,
    whatever the data source has become: the reply is frozen until entries
    expire, for a frame and for an error caused by a failed query alike. *)
Theorem reply_frozen_by_memo (ds ds' : DataSource) (movie_id : Z) (c : Cache) :
  engine_fails ds = false ->
  fst (recommendation ds' movie_id (snd (recommendation ds movie_id c)))
  = fst (recommendation ds movie_id c).
Proof.
  intros He.
  destruct (recommendation_run ds movie_id c) as [_ Hstore].
  destruct (Hstore He) as (v1 & v2 & H1 & H2 & Hreply).
  destruct (recommendation_run ds' movie_id (snd (recommendation ds movie_id c)))
    as [-> _].
  rewrite H1, H2. simpl. apply Hreply.
Qed.

Lemma reply_frozen_by_memo_witness :
  fst (recommendation sample_ds 10 (snd (recommendation failing_ds 10 empty_cache)))
  = mkReply [] (Some AttributeError).
Proof.
  rewrite (reply_frozen_by_memo failing_ds sample_ds 10 empty_cache eq_refl).
  reflexivity.
Defined.

(** * What [recommendation] reports *)

(** X12. When the all-users query works and the target movie has no event
    with rating > 4, [recommendation] returns the empty frame and hands
    nothing to [st.error], even if the similar-user query and the metadata
    query fail: their failure goes unnoticed. *)
Theorem empty_cohort_masks_failures (ds : DataSource) (movie_id : Z) (c : Cache) :
  coherent ds c ->
  engine_fails ds = false ->
  query_fails ds (QAllUserRecs movie_id) = false ->
  cohort_rows (ratings ds) movie_id = [] ->
  fst (recommendation ds movie_id c) = mkReply [] None.
Proof.
  intros Hc He Hq Hno.
  destruct (recommendation_reply ds movie_id c Hc) as [-> _].
  rewrite (get_all_user_recs_runs _ _ He Hq).
  rewrite (all_user_recs_query_empty_cohort _ _ Hno).
  unfold get_similar_recs, execute_query. rewrite He.
  destruct (query_fails ds (QSimilarRecs movie_id)); reflexivity.
Qed.

Lemma empty_cohort_masks_failures_witness :
  query_fails half_failing_ds (QSimilarRecs 40) = true /\
  query_fails half_failing_ds QMovies = true /\
  fst (recommendation half_failing_ds 40 empty_cache) = mkReply [] None.
Proof.
  split; [reflexivity|]. split; [reflexivity|].
  apply empty_cohort_masks_failures;
    [apply coherent_empty | reflexivity | reflexivity | reflexivity].
Defined.

(** X13. What is handed to [st.error] on memo tables that agree with the
    data source: the engine's exception when the engine cannot be created;
    the [AttributeError] of [None.empty] when the all-users query fails; the
    [TypeError] of [pd.merge] when the target movie has an event with
    rating > 4 and the similar-user query fails, or both queries work and the
    metadata query fails. The frame is empty in each case. *)
Theorem reported_errors (ds : DataSource) (movie_id : Z) (c : Cache) :
  coherent ds c ->
  (engine_fails ds = true ->
   fst (recommendation ds movie_id c) = mkReply [] (Some EngineError)) /\
  (engine_fails ds = false ->
   query_fails ds (QAllUserRecs movie_id) = true ->
   fst (recommendation ds movie_id c) = mkReply [] (Some AttributeError)) /\
  (engine_fails ds = false ->
   query_fails ds (QAllUserRecs movie_id) = false ->
   cohort_rows (ratings ds) movie_id <> [] ->
   query_fails ds (QSimilarRecs movie_id) = true \/ query_fails ds QMovies = true ->
   fst (recommendation ds movie_id c) = mkReply [] (Some TypeError)).
Proof.
  intros Hc.
  destruct (recommendation_reply ds movie_id c Hc) as [-> _].
  split; [|split].
  - intros He. unfold get_similar_recs, execute_query. rewrite He. reflexivity.
  - intros He Hq.
    unfold get_similar_recs, get_all_user_recs, execute_query. rewrite He, Hq.
    destruct (query_fails ds (QSimilarRecs movie_id)); reflexivity.
  - intros He Hq Hne Hf.
    rewrite (get_all_user_recs_runs _ _ He Hq).
    destruct (events_nonempty _ _ Hne) as (r & t & ->).
    unfold get_similar_recs, get_movies, execute_query. rewrite He.
    destruct (query_fails ds (QSimilarRecs movie_id)) eqn:Q1; [reflexivity|].
    destruct Hf as [Hf|Hf]; [discriminate|]. rewrite Hf.
    rewrite similar_recs_query_eq. reflexivity.
Qed.

Lemma reported_errors_witness :
  fst (recommendation failing_ds 10 empty_cache) = mkReply [] (Some AttributeError) /\
  fst (recommendation half_failing_ds 10 empty_cache) = mkReply [] (Some TypeError).
Proof.
  destruct (reported_errors failing_ds 10 empty_cache (coherent_empty _))
    as (_ & H2 & _).
  destruct (reported_errors half_failing_ds 10 empty_cache (coherent_empty _))
    as (_ & _ & H3).
  split.
  - apply H2; reflexivity.
  - apply H3; [reflexivity | reflexivity | vm_compute; discriminate | left; reflexivity].
Defined.

(** * The title-cleaning script *)

Lemma clean_title_allowed (title : string) :
  Forall (fun a => allowed_char a = true) (String.list_ascii_of_string (clean_title title)).
Proof.
  induction title as [|a rest IH]; simpl; [constructor|].
  destruct (allowed_char a) eqn:E; simpl; [constructor; assumption | exact IH].
Qed.

Lemma clean_title_fixed (title : string) :
  Forall (fun a => allowed_char a = true) (String.list_ascii_of_string title) ->
  clean_title title = title.
Proof.
  induction title as [|a rest IH]; simpl; intros H; [reflexivity|].
  inversion H as [|? ? Ha Hrest]; subst. rewrite Ha, (IH Hrest). reflexivity.
Qed.

(** X14. [clean_title] returns a title made of letters, digits and spaces
    only; it leaves a title unchanged exactly when the title is already made
    of such characters, so cleaning twice is cleaning once; and the cleaned
    title is never longer than the title. *)
Theorem clean_title_spec (title : string) :
  Forall (fun a => allowed_char a = true) (String.list_ascii_of_string (clean_title title)) /\
  (clean_title title = title <->
   Forall (fun a => allowed_char a = true) (String.list_ascii_of_string title)) /\
  clean_title (clean_title title) = clean_title title /\
  (String.length (clean_title title) <= String.length title)%nat.
Proof.
  split; [apply clean_title_allowed|]. split; [|split].
  - split; [|apply clean_title_fixed].
    intros E. rewrite <- E. apply clean_title_allowed.
  - apply clean_title_fixed, clean_title_allowed.
  - induction title as [|a rest IH]; simpl; [lia|].
    destruct (allowed_char a); simpl; lia.
Qed.

Lemma clean_title_spec_witness :
  clean_title "Se7en: Director's Cut!" = "Se7en Directors Cut" /\
  clean_title "Toy Story 1995" = "Toy Story 1995".
Proof.
  split; [reflexivity|].
  apply (proj1 (proj2 (clean_title_spec "Toy Story 1995"))).
  vm_compute. repeat constructor.
Defined.

Lemma execute_each_all {P T : Type} (stmt : P -> T -> T) (fails : nat -> bool)
    (params_list : list P) (i : nat) (tbl : T) :
  (forall j, (j < length params_list)%nat -> fails (i + j)%nat = false) ->
  execute_each stmt fails i params_list tbl
  = Some (fold_left (fun t p => stmt p t) params_list tbl).
Proof.
  revert i tbl. induction params_list as [|p rest IH]; simpl; intros i tbl H.
  - reflexivity.
  - pose proof (H 0%nat ltac:(lia)) as H0. rewrite Nat.add_0_r in H0. rewrite H0.
    apply IH. intros j Hj.
    replace (S i + j)%nat with (i + S j)%nat by lia. apply H. lia.
Qed.

Lemma execute_each_some {P T : Type} (stmt : P -> T -> T) (fails : nat -> bool)
    (params_list : list P) (i : nat) (tbl tbl' : T) :
  execute_each stmt fails i params_list tbl = Some tbl' ->
  (forall j, (j < length params_list)%nat -> fails (i + j)%nat = false) /\
  tbl' = fold_left (fun t p => stmt p t) params_list tbl.
Proof.
  revert i tbl. induction params_list as [|p rest IH]; simpl; intros i tbl H.
  - injection H as <-. split; [intros j Hj; lia | reflexivity].
  - destruct (fails i) eqn:F; [discriminate|].
    destruct (IH _ _ H) as [Hf ->]. split; [|reflexivity].
    intros [|j] Hj; [rewrite Nat.add_0_r; exact F|].
    replace (i + S j)%nat with (S i + j)%nat by lia. apply (Hf j). lia.
Qed.



Lemma fold_update_statement (params_list : list (string * Z)) (tbl : list Titled.t) :
  fold_left (fun t p => update_statement p t) params_list tbl
  = List.map (after_batch params_list) tbl.
Proof.
  revert tbl. induction params_list as [|p rest IH]; simpl; intros tbl.
  - symmetry. apply List.map_id.
  - rewrite IH. unfold update_statement. apply List.map_map.
Qed.

Lemma set_clean_title_fields (params : string * Z) (row : Titled.t) :
  Titled.movieId (set_clean_title params row) = Titled.movieId row /\
  Titled.title (set_clean_title params row) = Titled.title row /\
  Titled.genres (set_clean_title params row) = Titled.genres row.
Proof.
  unfold set_clean_title. destruct (Titled.movieId row =? snd params); auto.
Qed.

Lemma after_batch_fields (params_list : list (string * Z)) (row : Titled.t) :
  Titled.movieId (after_batch params_list row) = Titled.movieId row /\
  Titled.title (after_batch params_list row) = Titled.title row /\
  Titled.genres (after_batch params_list row) = Titled.genres row.
Proof.
  revert row. induction params_list as [|p rest IH]; simpl; intros row; [auto|].
  destruct (IH (set_clean_title p row)) as (-> & -> & ->).
  apply set_clean_title_fields.
Qed.

Lemma after_batch_absent (params_list : list (string * Z)) (row : Titled.t) :
  ~ In (Titled.movieId row) (List.map snd params_list) ->
  after_batch params_list row = row.
Proof.
  revert row. induction params_list as [|p rest IH]; simpl; intros row H; [reflexivity|].
  assert (E : set_clean_title p row = row).
  { unfold set_clean_title.
    destruct (Z.eqb_spec (Titled.movieId row) (snd p)) as [Heq|]; [|reflexivity].
    exfalso. apply H. left. symmetry. exact Heq. }
  rewrite E. apply IH. intros Hin. apply H. right. exact Hin.
Qed.

Lemma after_batch_app (l1 l2 : list (string * Z)) (row : Titled.t) :
  after_batch (l1 ++ l2) row = after_batch l2 (after_batch l1 row).
Proof.
  revert row. induction l1 as [|p rest IH]; simpl; intros row; [reflexivity|apply IH].
Qed.

Lemma after_batch_last (l1 l2 : list (string * Z)) (t : string) (row : Titled.t) :
  ~ In (Titled.movieId row) (List.map snd l2) ->
  Titled.clean_title (after_batch (l1 ++ (t, Titled.movieId row) :: l2) row) = Some t.
Proof.
  intros Hno. rewrite after_batch_app. simpl.
  destruct (after_batch_fields l1 row) as (Hid & _ & _).
  set (row1 := after_batch l1 row) in *.
  assert (E : set_clean_title (t, Titled.movieId row) row1
              = Titled.mk (Titled.movieId row1) (Titled.title row1)
                  (Titled.genres row1) (Some t)).
  { unfold set_clean_title. simpl. rewrite Hid, Z.eqb_refl. reflexivity. }
  rewrite E, after_batch_absent; [reflexivity|]. simpl. rewrite Hid. exact Hno.
Qed.

Lemma update_clean_titles_runs (db : SetupDb) (clean_titles : list (string * Z)) :
  setup_engine_fails db = false ->
  commit_fails db = false ->
  (forall j, (j < length clean_titles)%nat -> statement_fails db j = false) ->
  update_clean_titles db clean_titles
  = (Return (Z.of_nat (length clean_titles)),
     List.map (after_batch clean_titles) (titled_movies db)).
Proof.
  intros He Hc Hf. unfold update_clean_titles, execute_many_query.
  rewrite He, Hc, (execute_each_all _ _ _ 0 _ Hf), fold_update_statement.
  reflexivity.
Qed.

(** X16. When nothing fails, [update_clean_titles] leaves a table that has,
    in some order, one row for each row it had; each row keeps its [movieId],
    [title] and [genres]; a row whose movieId is in no tuple is unchanged; a
    row whose movieId is in some tuple ends with the title of the last such
    tuple in its [clean_title] column. *)
Theorem update_clean_titles_effect (db : SetupDb) (clean_titles : list (string * Z)) :
  setup_engine_fails db = false ->
  commit_fails db = false ->
  (forall j, (j < length clean_titles)%nat -> statement_fails db j = false) ->
  exists tbl',
    update_clean_titles db clean_titles
    = (Return (Z.of_nat (length clean_titles)), tbl') /\
    Permutation tbl' (List.map (after_batch clean_titles) (titled_movies db)) /\
    forall row,
      Titled.movieId (after_batch clean_titles row) = Titled.movieId row /\
      Titled.title (after_batch clean_titles row) = Titled.title row /\
      Titled.genres (after_batch clean_titles row) = Titled.genres row /\
      (~ In (Titled.movieId row) (List.map snd clean_titles) ->
       after_batch clean_titles row = row) /\
      (forall l1 t l2,
          clean_titles = l1 ++ (t, Titled.movieId row) :: l2 ->
          ~ In (Titled.movieId row) (List.map snd l2) ->
          Titled.clean_title (after_batch clean_titles row) = Some t).
Proof.
  intros He Hc Hf. eexists. split; [apply (update_clean_titles_runs _ _ He Hc Hf)|].
  split; [apply Permutation_refl|]. intros row.
  destruct (after_batch_fields clean_titles row) as (H1 & H2 & H3).
  repeat split; auto.
  - apply after_batch_absent.
  - intros l1 t l2 -> Hno. apply after_batch_last, Hno.
Qed.

Lemma update_clean_titles_effect_witness :
  exists tbl',
    update_clean_titles titled_db [("A", 1); ("B", 2); ("C", 1)]
    = (Return 3, tbl') /\
    In (Titled.mk 1 "Toy Story (1995)" "Animation" (Some "C")) tbl' /\
    In (Titled.mk 2 "Se7en: Director's Cut!" "Thriller" (Some "B")) tbl'.
Proof.
  destruct (update_clean_titles_effect titled_db [("A", 1); ("B", 2); ("C", 1)]
              eq_refl eq_refl (fun _ _ => eq_refl)) as (tbl' & E & Hperm & _).
  exists tbl'. split; [exact E|].
  split; apply (Permutation_in _ (Permutation_sym Hperm)); simpl; auto.
Defined.

(** X17. The number [update_clean_titles] returns counts the tuples, not
    the rows that were updated: when no tuple names a movieId of the table and
    nothing fails, the table is unchanged and the result is still the number
    of tuples. *)
Theorem update_counts_tuples_not_rows (db : SetupDb)
    (clean_titles : list (string * Z)) :
  setup_engine_fails db = false ->
  commit_fails db = false ->
  (forall j, (j < length clean_titles)%nat -> statement_fails db j = false) ->
  (forall p, In p clean_titles ->
             ~ In (snd p) (List.map Titled.movieId (titled_movies db))) ->
  update_clean_titles db clean_titles
  = (Return (Z.of_nat (length clean_titles)), titled_movies db).
Proof.
  intros He Hc Hf Hno. rewrite (update_clean_titles_runs _ _ He Hc Hf). f_equal.
  rewrite <- (List.map_id (titled_movies db)) at 2.
  apply map_ext_in. intros row Hrow. apply after_batch_absent.
  intros Hin. apply in_map_iff in Hin. destruct Hin as (p & Hp & Hin).
  apply (Hno p Hin). rewrite Hp. apply in_map, Hrow.
Qed.

Lemma update_counts_tuples_not_rows_witness :
  update_clean_titles titled_db [("A", 7); ("B", 8); ("C", 9)]
  = (Return 3, titled_sample).
Proof.
  apply (update_counts_tuples_not_rows titled_db [("A", 7); ("B", 8); ("C", 9)]);
    try reflexivity.
  intros p Hp. simpl in Hp.
  destruct Hp as [<-|[<-|[<-|[]]]]; simpl; intros [H|[H|[]]]; discriminate H.
Defined.

(** X18. On a table with unique movieId and with nothing failing, the
    script writes into every row the cleaned form of the row's own title,
    changes nothing else, and its update reports the number of rows. *)
Theorem db_clean_titles_result (db : SetupDb) :
  setup_engine_fails db = false ->
  titles_query_fails db = false ->
  commit_fails db = false ->
  (forall j, (j < length (titled_movies db))%nat -> statement_fails db j = false) ->
  List.NoDup (List.map Titled.movieId (titled_movies db)) ->
  db_clean_titles db
  = (Return (Z.of_nat (length (titled_movies db))),
     List.map
       (fun row => Titled.mk (Titled.movieId row) (Titled.title row)
                     (Titled.genres row) (Some (clean_title (Titled.title row))))
       (titled_movies db)).
Proof.
  intros He Hq Hc Hf Hn. unfold db_clean_titles, get_titles, execute_query_with.
  rewrite He, Hq, List.map_map. simpl.
  set (f := fun row : Titled.t => (clean_title (Titled.title row), Titled.movieId row)).
  rewrite update_clean_titles_runs; try assumption.
  2: { rewrite List.length_map. exact Hf. }
  rewrite List.length_map. f_equal.
  apply map_ext_in. intros row Hrow.
  destruct (in_split _ _ Hrow) as (t1 & t2 & Et).
  assert (Hlast : Titled.clean_title (after_batch (List.map f (titled_movies db)) row)
                  = Some (clean_title (Titled.title row))).
  { rewrite Et, List.map_app. simpl. unfold f at 2.
    apply after_batch_last. rewrite List.map_map. simpl.
    rewrite Et, List.map_app in Hn. simpl in Hn.
    apply NoDup_remove_2 in Hn. intros Hin. apply Hn, in_or_app. right. exact Hin. }
  destruct (after_batch_fields (List.map f (titled_movies db)) row) as (H1 & H2 & H3).
  destruct (after_batch (List.map f (titled_movies db)) row) as [i t g ct].
  simpl in *. congruence.
Qed.

Lemma db_clean_titles_result_witness :
  db_clean_titles titled_db
  = (Return 2,
     [Titled.mk 1 "Toy Story (1995)" "Animation" (Some "Toy Story 1995");
      Titled.mk 2 "Se7en: Director's Cut!" "Thriller" (Some "Se7en Directors Cut")]).
Proof.
  rewrite (db_clean_titles_result titled_db eq_refl eq_refl eq_refl
             (fun _ _ => eq_refl)); [reflexivity|].
  apply NoDup_ListNoDup, (bool_decide_unpack _). vm_compute. reflexivity.
Defined.

Lemma execute_many_query_unchanged {P T : Type} (stmt : P -> T -> T)
    (engine_down : bool) (fails : nat -> bool) (commit_down : bool)
    (params_list : list P) (tbl : T) :
  fst (execute_many_query stmt engine_down fails commit_down params_list tbl)
  <> Return (Z.of_nat (length params_list)) ->
  snd (execute_many_query stmt engine_down fails commit_down params_list tbl) = tbl.
Proof.
  unfold execute_many_query. destruct engine_down; [reflexivity|].
  destruct (execute_each stmt fails 0 params_list tbl); [|reflexivity].
  destruct commit_down; [reflexivity|]. simpl. congruence.
Qed.

(** X19. The script never leaves a partly cleaned table: unless its update
    reports the number of rows, the table is as it was. When the engine cannot
    be created the script ends with the engine's exception; when the query
    of [get_titles] fails it ends with the [TypeError] of subscripting [None],
    which nothing catches. *)
Theorem db_clean_titles_failure (db : SetupDb) :
  (fst (db_clean_titles db) <> Return (Z.of_nat (length (titled_movies db))) ->
   snd (db_clean_titles db) = titled_movies db) /\
  (setup_engine_fails db = true ->
   db_clean_titles db = (Raise EngineError, titled_movies db)) /\
  (setup_engine_fails db = false -> titles_query_fails db = true ->
   db_clean_titles db = (Raise TypeError, titled_movies db)).
Proof.
  unfold db_clean_titles, get_titles, execute_query_with. split; [|split].
  - destruct (setup_engine_fails db) eqn:He; [reflexivity|].
    destruct (titles_query_fails db); [reflexivity|].
    intros H. unfold update_clean_titles in *.
    apply execute_many_query_unchanged.
    rewrite !List.length_map. exact H.
  - intros ->. reflexivity.
  - intros -> ->. reflexivity.
Qed.

Lemma db_clean_titles_failure_witness :
  db_clean_titles titled_db_failing = (Return (-1), titled_sample) /\
  snd (db_clean_titles titled_db_failing) = titled_movies titled_db_failing.
Proof.
  split; [reflexivity|].
  apply (proj1 (db_clean_titles_failure titled_db_failing)).
  vm_compute. discriminate.
Defined.

(** * The selection of [main] *)

(** X20. Every title offered in the selection box resolves to a movieId,
    so [iloc[0]] cannot fail on it; the movieId is that of the first row with
    the title, so a movie that shares its title with an earlier row is never
    the one selected. A title that no row has resolves to nothing. *)
Theorem selected_movie_id_first (all_movies : list Movie.t) (selected_movie : string) :
  (In selected_movie (movie_titles all_movies) ->
   exists l1 m l2,
     all_movies = l1 ++ m :: l2 /\
     Movie.title m = selected_movie /\
     (forall m', In m' l1 -> Movie.title m' <> selected_movie) /\
     selected_movie_id all_movies selected_movie = Some (Movie.movieId m)) /\
  (~ In selected_movie (movie_titles all_movies) ->
   selected_movie_id all_movies selected_movie = None).
Proof.
  unfold selected_movie_id, movie_titles.
  induction all_movies as [|m l [IH1 IH2]]; simpl.
  - split; [intros [] | reflexivity].
  - destruct (String.eqb_spec (Movie.title m) selected_movie) as [E|E].
    + split; [|intros H; exfalso; apply H; left; exact E].
      intros _. exists [], m, l. simpl. repeat split; auto; intros m' [].
    + split.
      * intros [H|H]; [contradiction|].
        destruct (IH1 H) as (l1 & m0 & l2 & -> & Ht & Hl1 & Hsel).
        exists (m :: l1), m0, l2. simpl. repeat split; auto.
        intros m' [<-|Hm']; [exact E | apply Hl1, Hm'].
      * intros H. apply IH2. intros Hin. apply H. right. exact Hin.
Qed.

Lemma selected_movie_id_first_witness :
  exists l1 m l2,
    [Movie.mk 10 "A" "Drama"; Movie.mk 20 "B" "Comedy"; Movie.mk 30 "A" "Remake"]
    = l1 ++ m :: l2 /\
    Movie.title m = "A" /\
    (forall m', In m' l1 -> Movie.title m' <> "A") /\
    selected_movie_id
      [Movie.mk 10 "A" "Drama"; Movie.mk 20 "B" "Comedy"; Movie.mk 30 "A" "Remake"]
      "A"
    = Some (Movie.movieId m).
Proof.
  apply (proj1 (selected_movie_id_first
                  [Movie.mk 10 "A" "Drama"; Movie.mk 20 "B" "Comedy";
                   Movie.mk 30 "A" "Remake"] "A")).
  simpl. auto.
Defined.


(** * The indexes *)

Lemma create_all_lookup (queries : list (string * IndexDef))
    (catalogue : gmap string IndexDef) (name : string) (d : IndexDef) :
  catalogue !! name = Some d ->
  fold_left (fun t q => create_index_if_not_exists q t) queries catalogue !! name
  = Some d.
Proof.
  revert catalogue. induction queries as [|q rest IH]; simpl; intros catalogue H;
    [exact H|].
  apply IH. unfold create_index_if_not_exists.
  destruct (catalogue !! fst q) eqn:E; [exact H|].
  rewrite lookup_insert_ne; [exact H|]. intros <-. congruence.
Qed.

Lemma create_all_present (queries : list (string * IndexDef))
    (catalogue : gmap string IndexDef) (q : string * IndexDef) :
  In q queries ->
  is_Some (fold_left (fun t q => create_index_if_not_exists q t) queries catalogue
           !! fst q).
Proof.
  revert catalogue. induction queries as [|q0 rest IH]; simpl; intros catalogue H;
    [destruct H|].
  destruct H as [->|H]; [|apply IH, H].
  unfold create_index_if_not_exists at 2.
  destruct (catalogue !! fst q) as [d|] eqn:E.
  - exists d. apply create_all_lookup, E.
  - exists (snd q). apply create_all_lookup, lookup_insert_eq.
Qed.

Lemma create_all_noop (queries : list (string * IndexDef))
    (catalogue : gmap string IndexDef) :
  (forall q, In q queries -> is_Some (catalogue !! fst q)) ->
  fold_left (fun t q => create_index_if_not_exists q t) queries catalogue = catalogue.
Proof.
  induction queries as [|q rest IH]; simpl; intros H; [reflexivity|].
  assert (E : create_index_if_not_exists q catalogue = catalogue).
  { unfold create_index_if_not_exists.
    destruct (H q (or_introl eq_refl)) as [d ->]. reflexivity. }
  rewrite E. apply IH. intros q' Hq'. apply H. right. exact Hq'.
Qed.

(** X21. [create_indexes] is all or nothing and never touches an index that
    exists: when it returns [True] every index of the list is in the
    catalogue and every index present before, one of a listed name included,
    keeps its definition, so that running it again changes nothing; when it
    returns [False] or raises, the catalogue is as it was. *)
Theorem create_indexes_spec (engine_down : bool) (fails : nat -> bool)
    (commit_down : bool) (catalogue : gmap string IndexDef) :
  (forall catalogue',
      create_indexes engine_down fails commit_down catalogue = (Return true, catalogue') ->
      (forall q, In q index_queries -> is_Some (catalogue' !! fst q)) /\
      (forall name d, catalogue !! name = Some d -> catalogue' !! name = Some d) /\
      create_indexes false (fun _ => false) false catalogue' = (Return true, catalogue')) /\
  (fst (create_indexes engine_down fails commit_down catalogue) <> Return true ->
   snd (create_indexes engine_down fails commit_down catalogue) = catalogue).
Proof.
  unfold create_indexes. split.
  - intros catalogue' H.
    destruct engine_down; [discriminate|].
    destruct (execute_each create_index_if_not_exists fails 0 index_queries catalogue)
      as [c1|] eqn:E; [|discriminate].
    destruct commit_down; [discriminate|]. injection H as <-.
    apply execute_each_some in E. destruct E as [_ ->].
    assert (Hall : forall q, In q index_queries ->
                     is_Some (fold_left (fun t q => create_index_if_not_exists q t)
                                index_queries catalogue !! fst q))
      by (intros q Hq; apply create_all_present, Hq).
    split; [exact Hall|]. split; [intros name d; apply create_all_lookup|].
    rewrite (execute_each_all _ _ _ 0%nat _ (fun _ _ => eq_refl)).
    rewrite (create_all_noop _ _ Hall). reflexivity.
  - destruct engine_down; [reflexivity|].
    destruct (execute_each create_index_if_not_exists fails 0 index_queries catalogue);
      [|reflexivity].
    destruct commit_down; [reflexivity|]. simpl. congruence.
Qed.

Lemma create_indexes_spec_witness :
  exists catalogue',
    create_indexes false (fun _ => false) false
      {[ "idx_movies_movieid" := mkIndexDef "movies" ["title"] ]}
    = (Return true, catalogue') /\
    catalogue' !! "idx_movies_movieid" = Some (mkIndexDef "movies" ["title"]) /\
    is_Some (catalogue' !! "idx_ratings_userid").
Proof.
  eexists. split; [reflexivity|].
  destruct (proj1 (create_indexes_spec false (fun _ => false) false
                     {[ "idx_movies_movieid" := mkIndexDef "movies" ["title"] ]})
              _ eq_refl) as (Hall & Hkeep & _).
  split.
  - apply Hkeep. reflexivity.
  - apply (Hall ("idx_ratings_userid", mkIndexDef "ratings" ["userId"])).
    simpl. auto.
Defined.

(** * Two calls on one data source *)

Lemma same_view_trans (ds : DataSource) (m : Z) (c1 c2 c3 : Cache) :
  same_view ds m c1 c2 -> same_view ds m c2 c3 -> same_view ds m c1 c3.
Proof.
  unfold same_view. intros (A1 & B1 & C1) (A2 & B2 & C2).
  repeat split; congruence.
Qed.

Lemma get_cached_similar_recs_view (ds : DataSource) (m : Z) (c : Cache) :
  same_view ds m c (snd (get_cached_similar_recs ds m c)).
Proof.
  destruct (get_cached_similar_recs_tables ds m c) as (M & A & _ & _).
  unfold same_view. rewrite M, A. split; [|auto].
  unfold get_cached_similar_recs.
  destruct (similar_memo c !! m) as [v|] eqn:E; simpl; [rewrite E; reflexivity|].
  destruct (get_similar_recs ds m) as [v|e]; simpl.
  - rewrite lookup_insert_eq. reflexivity.
  - rewrite E. reflexivity.
Qed.

Lemma get_cached_all_user_recs_view (ds : DataSource) (m : Z) (c : Cache) :
  same_view ds m c (snd (get_cached_all_user_recs ds m c)).
Proof.
  destruct (get_cached_all_user_recs_tables ds m c) as (M & S & _ & _).
  unfold same_view. rewrite M, S. split; [reflexivity|]. split; [|reflexivity].
  unfold get_cached_all_user_recs.
  destruct (all_users_memo c !! m) as [v|] eqn:E; simpl; [rewrite E; reflexivity|].
  destruct (get_all_user_recs ds m) as [v|e]; simpl.
  - rewrite lookup_insert_eq. reflexivity.
  - rewrite E. reflexivity.
Qed.

Lemma load_movies_view (ds : DataSource) (m : Z) (c : Cache) :
  same_view ds m c (snd (load_movies ds c)).
Proof.
  destruct (load_movies_tables ds c) as (S & A & _ & _).
  unfold same_view. rewrite S, A. split; [reflexivity|]. split; [reflexivity|].
  unfold load_movies.
  destruct (movies_memo c) as [v|] eqn:E; simpl; [rewrite E; reflexivity|].
  destruct (get_movies ds) as [v|e]; simpl; [reflexivity|].
  rewrite E. reflexivity.
Qed.

(** On the tables a call leaves, the decorated functions deliver, on the
    same data source, what they delivered to the call. *)
Lemma recommendation_view (ds : DataSource) (movie_id : Z) (c : Cache) :
  same_view ds movie_id c (snd (recommendation ds movie_id c)).
Proof.
  unfold recommendation, recommendation_try, bind, to_python_type.
  pose proof (get_cached_similar_recs_view ds movie_id c) as V1.
  destruct (get_cached_similar_recs ds movie_id c) as [o1 c1]. simpl in V1.
  destruct o1 as [v1|e1]; [|exact V1].
  pose proof (get_cached_all_user_recs_view ds movie_id c1) as V2.
  destruct (get_cached_all_user_recs ds movie_id c1) as [o2 c2]. simpl in V2.
  pose proof (same_view_trans _ _ _ _ _ V1 V2) as V12.
  destruct o2 as [v2|e2]; [|exact V12].
  destruct v2 as [[|r a]|]; simpl; try exact V12.
  destruct v1 as [s|]; simpl; try exact V12.
  pose proof (load_movies_view ds movie_id c2) as V3.
  destruct (load_movies ds c2) as [o3 c3]. simpl in V3.
  pose proof (same_view_trans _ _ _ _ _ V12 V3) as V123.
  destruct o3 as [[mv|]|e3]; exact V123.
Qed.

(** C9, as the code has it. The memo tables of [st.cache_data] are state
    carried from call to call. Two consecutive calls of [recommendation] for
    a movie on one data source, with no entry lost between them, reply the
    same, whatever the tables held. When the tables hold only values
    computed from that data source, a call on any other such tables (for
    instance after entries have expired) replies the same as well, and the
    tables a call leaves are of that kind again, so that this holds along any
    sequence of calls that starts from empty tables. *)
Theorem recommendation_deterministic (ds : DataSource) (movie_id : Z) (c : Cache) :
  fst (recommendation ds movie_id (snd (recommendation ds movie_id c)))
  = fst (recommendation ds movie_id c) /\
  (coherent ds c ->
   (forall c', coherent ds c' ->
               fst (recommendation ds movie_id c') = fst (recommendation ds movie_id c)) /\
   coherent ds (snd (recommendation ds movie_id c))).
Proof.
  split.
  - destruct (recommendation_view ds movie_id c) as (V1 & V2 & V3).
    rewrite (proj1 (recommendation_run ds movie_id (snd (recommendation ds movie_id c)))).
    rewrite (proj1 (recommendation_run ds movie_id c)).
    rewrite V1, V2, V3. reflexivity.
  - intros Hc. destruct (recommendation_reply ds movie_id c Hc) as [E Hc1].
    split; [|exact Hc1].
    intros c' Hc'. destruct (recommendation_reply ds movie_id c' Hc') as [E' _].
    congruence.
Qed.

Lemma recommendation_deterministic_witness :
  fst (recommendation sample_ds 10 (snd (recommendation sample_ds 10 empty_cache)))
  = fst (recommendation sample_ds 10 empty_cache) /\
  coherent sample_ds (snd (recommendation sample_ds 10 empty_cache)).
Proof.
  destruct (recommendation_deterministic sample_ds 10 empty_cache) as [H1 H2].
  split; [exact H1|]. apply H2, coherent_empty.
Defined.

(** C9, as stated, fails: two calls for movie 10 on the same ratings and
    metadata, with engine and queries working, reply differently. The first
    runs on the tables left by a call made while the queries failed and
    repeats the stored failure; the second runs once those entries have
    expired and returns the frame. *)
Lemma memo_changes_reply :
  ratings failing_ds = ratings sample_ds /\
  movies failing_ds = movies sample_ds /\
  engine_fails sample_ds = false /\
  (forall q, query_fails sample_ds q = false) /\
  fst (recommendation sample_ds 10 (snd (recommendation failing_ds 10 empty_cache)))
  = mkReply [] (Some AttributeError) /\
  st_error (fst (recommendation sample_ds 10 empty_cache)) = None /\
  List.map Result.movieId (frame (fst (recommendation sample_ds 10 empty_cache)))
  = [10; 20] /\
  fst (recommendation sample_ds 10 (snd (recommendation failing_ds 10 empty_cache)))
  <> fst (recommendation sample_ds 10 empty_cache).
Proof.
  repeat (split; [reflexivity|]).
  intros H. apply (f_equal st_error) in H. vm_compute in H. discriminate H.
Qed.
